(** * Smart lock over MQTT: a shallow embedding of [lock.py]

    The script keeps one global dictionary, [config_options], loaded from
    [lock.json].  Two topic callbacks, [toggle_lock] and
    [toggle_temp_password], read the password carried by an inbound message,
    classify it with [authenticate], update the dictionary, rewrite
    [lock.json] and publish a status string on [lock/update].

    The embedding follows the script function by function.  The dictionary is
    a record with one field per key the script reads; the callbacks run in a
    small state-and-exception monad whose state is the dictionary together
    with the log of the input/output calls made so far. *)

From Stdlib Require Import ZArith List Bool Lia.
From Stdlib.Strings Require Import String Ascii Byte.
Import ListNotations.

Local Open Scope string_scope.
Local Open Scope list_scope.
Local Open Scope Z_scope.

(* ===================================================================== *)
(** ** Data *)
(* ===================================================================== *)

(** The dictionary read from [lock.json].  ["locked"] and
    ["mqtt_temp_active"] are JSON numbers that the script compares with [0]
    and [1] (a JSON [true]/[false] compares equal to [1]/[0] in Python, so
    an integer covers both); the passwords and the client id are strings.
    A Python [str] is represented by its UTF-8 encoding, so that two [str]
    are equal exactly when their representations are. *)
Record Config : Type := mkConfig {
  locked : Z;
  mqtt_temp_active : Z;
  mqtt_temp_pass : string;
  mqtt_perm_pass : string;
  mqtt_qos : Z;
  mqtt_client_id : string;
  mqtt_transport : string
}.

(** An inbound MQTT message: the topic is text, the payload raw bytes. *)
Record Message : Type := mkMessage {
  topic : string;
  payload : list byte
}.

(** What [slock.publish] is called with. *)
Record Publication : Type := mkPublication {
  pub_topic : string;
  pub_payload : string;
  pub_qos : Z;
  pub_retain : bool;
  pub_expiry : Z
}.

(** The input/output calls of the callbacks, in program order. *)
Inductive Event : Type :=
| EOpenW (path : string)                 (* open(path, "w") *)
| EDump (path : string) (c : Config)     (* json.dump(config_options, f) *)
| EClose (path : string)                 (* leaving the with block *)
| EPublish (p : Publication).            (* slock.publish(...) *)

Inductive Exn : Type :=
| UnicodeDecodeError.

(** Python truthiness of a number. *)
Definition truthy (z : Z) : bool := negb (z =? 0).

(* ===================================================================== *)
(** ** [bytes.decode()]: strict UTF-8 *)
(* ===================================================================== *)

Definition between (lo hi n : N) : bool := (lo <=? n)%N && (n <=? hi)%N.

Definition continuation (b : byte) : bool := between 128 191 (Byte.to_N b).

(** Well-formed UTF-8, as the strict codec accepts it: shortest forms only,
    no surrogates, nothing above U+10FFFF. *)
Fixpoint utf8_well_formed (bs : list byte) : bool :=
  match bs with
  | [] => true
  | b0 :: t0 =>
    let n0 := Byte.to_N b0 in
    if (n0 <=? 127)%N then utf8_well_formed t0
    else
      match t0 with
      | [] => false
      | b1 :: t1 =>
        let n1 := Byte.to_N b1 in
        if between 194 223 n0 then continuation b1 && utf8_well_formed t1
        else
          match t1 with
          | [] => false
          | b2 :: t2 =>
            if between 224 239 n0 then
              (if (n0 =? 224)%N then between 160 191 n1
               else if (n0 =? 237)%N then between 128 159 n1
               else continuation b1)
              && continuation b2 && utf8_well_formed t2
            else
              match t2 with
              | [] => false
              | b3 :: t3 =>
                if between 240 244 n0 then
                  (if (n0 =? 240)%N then between 144 191 n1
                   else if (n0 =? 244)%N then between 128 143 n1
                   else continuation b1)
                  && continuation b2 && continuation b3
                  && utf8_well_formed t3
                else false
              end
          end
      end
  end.

(** [payload.decode()]: the text, or [UnicodeDecodeError]. *)
Definition decode (bs : list byte) : Exn + string :=
  if utf8_well_formed bs then inr (string_of_list_byte bs)
  else inl UnicodeDecodeError.

(** The bytes of a text, for writing messages down. *)
Definition encode (s : string) : list byte := list_byte_of_string s.

(* ===================================================================== *)
(** ** The monad of the callbacks *)
(* ===================================================================== *)

Record World : Type := mkWorld {
  config_options : Config;
  io_log : list Event
}.

Inductive Outcome (A : Type) : Type :=
| Returned (a : A)
| Raised (e : Exn).
Arguments Returned {A} a.
Arguments Raised {A} e.

Definition Py (A : Type) : Type := World -> Outcome A * World.

Definition ret {A} (a : A) : Py A := fun w => (Returned a, w).

Definition bind {A B} (m : Py A) (k : A -> Py B) : Py B :=
  fun w =>
    match m w with
    | (Returned a, w') => k a w'
    | (Raised e, w') => (Raised e, w')
    end.

Notation "x <- m ;; k" := (bind m (fun x => k))
  (at level 61, m at next level, right associativity).
Notation "m ;;; k" := (bind m (fun _ => k))
  (at level 61, right associativity).

Definition raise {A} (e : Exn) : Py A := fun w => (Raised e, w).

Definition lift_result {A} (r : Exn + A) : Py A :=
  match r with
  | inl e => raise e
  | inr a => ret a
  end.

(** Reading the global dictionary. *)
Definition read_config : Py Config := fun w => (Returned (config_options w), w).

(** The dictionary after [config["locked"] = v]. *)
Definition set_locked (v : Z) (c : Config) : Config :=
  mkConfig v (mqtt_temp_active c) (mqtt_temp_pass c) (mqtt_perm_pass c)
           (mqtt_qos c) (mqtt_client_id c) (mqtt_transport c).

(** The dictionary after [config["mqtt_temp_active"] = v]. *)
Definition set_mqtt_temp_active (v : Z) (c : Config) : Config :=
  mkConfig (locked c) v (mqtt_temp_pass c) (mqtt_perm_pass c)
           (mqtt_qos c) (mqtt_client_id c) (mqtt_transport c).

(** [config_options["locked"] = v] *)
Definition assign_locked (v : Z) : Py unit :=
  fun w => (Returned tt, mkWorld (set_locked v (config_options w)) (io_log w)).

(** [config_options["mqtt_temp_active"] = v] *)
Definition assign_mqtt_temp_active (v : Z) : Py unit :=
  fun w =>
    (Returned tt,
     mkWorld (set_mqtt_temp_active v (config_options w)) (io_log w)).

Definition emit (e : Event) : Py unit :=
  fun w => (Returned tt, mkWorld (config_options w) (io_log w ++ [e])).

(** [with open(path, "w") as f: json.dump(config_options, f)] *)
Definition dump_config (path : string) : Py unit :=
  emit (EOpenW path) ;;;
  c <- read_config ;;
  emit (EDump path c) ;;;
  emit (EClose path).

(* ===================================================================== *)
(** ** Utility functions *)
(* ===================================================================== *)

Definition MQTT_RESPONSE_TOPIC : string := "lock/update".

(** [authenticate(config, password)].  The first test reads the argument
    [config]; the second reads ["mqtt_temp_active"] from the argument and
    ["mqtt_temp_pass"] from the global [config_options].  Result:
    0 = neither, 1 = permanent, 2 = temporary and active. *)
Definition authenticate (globals config : Config) (password : string) : Z :=
  if (mqtt_perm_pass config =? password)%string then 1
  else if truthy (mqtt_temp_active config)
          && (mqtt_temp_pass globals =? password)%string
       then 2
       else 0.

(** [publish(config, topic, message)] *)
Definition publish (config : Config) (topic message : string) : Py unit :=
  emit (EPublish (mkPublication topic message (mqtt_qos config) false 30)).

(* ===================================================================== *)
(** ** Topic callbacks *)
(* ===================================================================== *)

Definition toggle_lock (message : Message) : Py unit :=
  password <- lift_result (decode (payload message)) ;;
  let topic := topic message in
  c <- read_config ;;
  let redundant :=
    (locked c =? 0) && (topic =? "lock/unlock")%string
    || (locked c =? 1) && (topic =? "lock/lock")%string in
  g <- read_config ;;
  let authenticated := authenticate g g password in
  let response_message :=
    if (topic =? "lock/lock")%string then "Failure: Locking Failed"
    else "Failure: Unlocking Failed" in
  response_message <-
    (if negb (authenticated =? 0) then
       (if negb redundant then
          c <- read_config ;;
          assign_locked (if locked c =? 1 then 0 else 1) ;;;
          c <- read_config ;;
          if (authenticated =? 2) && (locked c =? 0)
          then assign_mqtt_temp_active 0
          else ret tt
        else ret tt) ;;;
       dump_config "lock.json" ;;;
       let response_prefix := if redundant then "Already" else "Now" in
       let response_type :=
         if (topic =? "lock/lock")%string then "Engaged" else "Disengaged" in
       ret ("Success: Lock " ++ response_prefix ++ " " ++ response_type)%string
     else ret response_message) ;;
  g <- read_config ;;
  publish g MQTT_RESPONSE_TOPIC response_message.

Definition toggle_temp_password (message : Message) : Py unit :=
  password <- lift_result (decode (payload message)) ;;
  let topic := topic message in
  c <- read_config ;;
  let redundant :=
    (mqtt_temp_active c =? 0) && (topic =? "lock/password/temp/deactivate")%string
    || (mqtt_temp_active c =? 1) && (topic =? "lock/password/temp/activate")%string in
  g <- read_config ;;
  let authenticated := authenticate g g password in
  let response_message :=
    if (topic =? "lock/password/temp/activate")%string
    then "Failure: Temp Password Activation Failed"
    else "Failure: Temp Password Deactivation Failed" in
  response_message <-
    (if authenticated =? 1 then
       (if negb redundant then
          c <- read_config ;;
          assign_mqtt_temp_active (if mqtt_temp_active c =? 1 then 0 else 1)
        else ret tt) ;;;
       dump_config "lock.json" ;;;
       let response_prefix := if redundant then "Already" else "Now" in
       let response_type :=
         if (topic =? "lock/password/temp/activate")%string
         then "Activated" else "Deactivated" in
       ret ("Success: Temp Password " ++ response_prefix ++ " " ++ response_type)%string
     else ret response_message) ;;
  g <- read_config ;;
  publish g MQTT_RESPONSE_TOPIC response_message.

(* ===================================================================== *)
(** ** Callback configuration *)
(* ===================================================================== *)

(** The table filled by the four [slock.message_callback_add] calls.  None
    of the filters has a wildcard, so a topic matches a filter exactly when
    it is equal to it. *)
Definition message_callbacks : list (string * (Message -> Py unit)) :=
  [ ("lock/lock", toggle_lock);
    ("lock/unlock", toggle_lock);
    ("lock/password/temp/activate", toggle_temp_password);
    ("lock/password/temp/deactivate", toggle_temp_password) ].

Fixpoint find_callback (table : list (string * (Message -> Py unit)))
         (t : string) : option (Message -> Py unit) :=
  match table with
  | [] => None
  | (filter, callback) :: rest =>
    if (filter =? t)%string then Some callback else find_callback rest t
  end.

(** Delivery of one inbound message by the client loop: the callback
    registered for the topic runs; the script sets no general [on_message],
    so any other topic is dropped. *)
Definition on_message (message : Message) : Py unit :=
  match find_callback message_callbacks (topic message) with
  | Some callback => callback message
  | None => ret tt
  end.

(* ===================================================================== *)
(** ** Observing a run *)
(* ===================================================================== *)

(** One callback run from dictionary [c], with an empty log. *)
Definition run (m : Py unit) (c : Config) : Outcome unit * World :=
  m (mkWorld c []).

Definition config_after (m : Py unit) (c : Config) : Config :=
  config_options (snd (run m c)).

Definition log_after (m : Py unit) (c : Config) : list Event :=
  io_log (snd (run m c)).

(** The payloads handed to [slock.publish], in order. *)
Fixpoint responses (log : list Event) : list string :=
  match log with
  | [] => []
  | EPublish p :: rest => pub_payload p :: responses rest
  | _ :: rest => responses rest
  end.

(** The records handed to [json.dump], in order. *)
Fixpoint dumps (log : list Event) : list Config :=
  match log with
  | [] => []
  | EDump _ c :: rest => c :: dumps rest
  | _ :: rest => dumps rest
  end.

(** What [lock.json] holds: a record, or nothing. *)
Inductive FileContent : Type :=
| Holds (c : Config)
| Truncated.

(** The file together with the file object that writes to it.
    [open(path, "w")] empties the file at once.  [json.dump] writes into
    the buffer of the file object, which a record of the size of the
    script's dictionary does not fill; the record reaches the file when
    the [with] block closes it.  What is still in the buffer when the
    process stops is lost. *)
Record Disk : Type := mkDisk {
  on_disk : FileContent;
  buffered : option Config
}.

Definition disk_step (d : Disk) (e : Event) : Disk :=
  match e with
  | EOpenW path =>
    if (path =? "lock.json")%string then mkDisk Truncated None else d
  | EDump path c =>
    if (path =? "lock.json")%string then mkDisk (on_disk d) (Some c) else d
  | EClose path =>
    if (path =? "lock.json")%string then
      match buffered d with
      | Some c => mkDisk (Holds c) None
      | None => d
      end
    else d
  | EPublish _ => d
  end.

(** The file after the calls of [log], starting from content [d] with no
    file object open. *)
Definition disk_after (d : FileContent) (log : list Event) : FileContent :=
  on_disk (fold_left disk_step log (mkDisk d None)).


(** The status strings of the callbacks. *)
Definition lock_vocabulary : list string :=
  [ "Success: Lock Already Engaged"; "Success: Lock Now Engaged";
    "Success: Lock Already Disengaged"; "Success: Lock Now Disengaged";
    "Failure: Locking Failed"; "Failure: Unlocking Failed" ].

Definition temp_vocabulary : list string :=
  [ "Success: Temp Password Already Activated";
    "Success: Temp Password Now Activated";
    "Success: Temp Password Already Deactivated";
    "Success: Temp Password Now Deactivated";
    "Failure: Temp Password Activation Failed";
    "Failure: Temp Password Deactivation Failed" ].

Definition vocabulary : list string := lock_vocabulary ++ temp_vocabulary.

(** The publication [publish(config_options, MQTT_RESPONSE_TOPIC, r)]
    makes when the dictionary is [c]. *)
Definition response_publication (c : Config) (r : string) : Publication :=
  mkPublication "lock/update" r (mqtt_qos c) false 30.

(** The calls of a refused command: the answer only. *)
Definition refusal (c : Config) (r : string) : list Event :=
  [ EPublish (response_publication c r) ].

(** The calls of an accepted command that leaves the dictionary as [c]:
    the file is rewritten, then the answer goes out. *)
Definition save_then_answer (c : Config) (r : string) : list Event :=
  [ EOpenW "lock.json"; EDump "lock.json" c; EClose "lock.json";
    EPublish (response_publication c r) ].

(** The redundancy tests of the two callbacks, and the dictionary an
    accepted, non-redundant request leaves. *)
Definition lock_toggled (authenticated : Z) (c : Config) : Config :=
  let c1 := set_locked (if locked c =? 1 then 0 else 1) c in
  if (authenticated =? 2) && (locked c1 =? 0)
  then set_mqtt_temp_active 0 c1 else c1.

Definition lock_redundant (c : Config) (t : string) : bool :=
  (locked c =? 0) && (t =? "lock/unlock")%string
  || (locked c =? 1) && (t =? "lock/lock")%string.

Definition temp_redundant (c : Config) (t : string) : bool :=
  (mqtt_temp_active c =? 0) && (t =? "lock/password/temp/deactivate")%string
  || (mqtt_temp_active c =? 1) && (t =? "lock/password/temp/activate")%string.

Definition temp_toggled (c : Config) : Config :=
  set_mqtt_temp_active (if mqtt_temp_active c =? 1 then 0 else 1) c.

(** The topics with a callback. *)
Definition routed_topics : list string := map fst message_callbacks.


(** The keys no callback assigns. *)
Definition same_settings (c c' : Config) : Prop :=
  mqtt_perm_pass c' = mqtt_perm_pass c /\
  mqtt_temp_pass c' = mqtt_temp_pass c /\
  mqtt_qos c' = mqtt_qos c /\
  mqtt_client_id c' = mqtt_client_id c /\
  mqtt_transport c' = mqtt_transport c.

(* ===================================================================== *)
(** ** Properties the script does not have

    Each is stated for flags that are exactly 0 or 1 and payloads that
    decode, and is refuted further down at a concrete input. *)
(* ===================================================================== *)

(** Unlocking with the stored temporary password always retires it. *)
Definition temporary_value_unlock_retires : Prop :=
  forall (c : Config) (message : Message),
    mqtt_temp_active c = 1 ->
    locked c = 1 ->
    topic message = "lock/unlock" ->
    decode (payload message) = inr (mqtt_temp_pass c) ->
    locked (config_after (on_message message) c) = 0 /\
    mqtt_temp_active (config_after (on_message message) c) = 0 /\
    responses (log_after (on_message message) c)
    = ["Success: Lock Now Disengaged"].

(** The stored temporary password, while active, can never activate or
    deactivate itself. *)
Definition temporary_value_cannot_manage : Prop :=
  forall (c : Config) (message : Message),
    mqtt_temp_active c = 1 ->
    topic message = "lock/password/temp/activate"
    \/ topic message = "lock/password/temp/deactivate" ->
    decode (payload message) = inr (mqtt_temp_pass c) ->
    config_after (on_message message) c = c /\
    dumps (log_after (on_message message) c) = [] /\
    responses (log_after (on_message message) c)
    = [ if (topic message =? "lock/password/temp/activate")%string
        then "Failure: Temp Password Activation Failed"
        else "Failure: Temp Password Deactivation Failed" ].

(** The stored temporary password, while inactive, classifies as neither. *)
Definition inactive_temporary_value_is_neither : Prop :=
  forall c : Config,
    mqtt_temp_active c = 0 ->
    authenticate c c (mqtt_temp_pass c) = 0.

(** A lock or unlock request accepted once is, when repeated, accepted
    again as redundant. *)
Definition repeated_request_is_redundant : Prop :=
  forall (c : Config) (message : Message) (password : string),
    locked c = 0 \/ locked c = 1 ->
    mqtt_temp_active c = 0 \/ mqtt_temp_active c = 1 ->
    topic message = "lock/lock" \/ topic message = "lock/unlock" ->
    decode (payload message) = inr password ->
    authenticate c c password <> 0 ->
    let c1 := config_after (on_message message) c in
    let c2 := config_after (on_message message) c1 in
    locked c2 = locked c1 /\
    (exists r : string,
        responses (log_after (on_message message) c1) = [r] /\
        prefix "Success: Lock Already" r = true) /\
    dumps (log_after (on_message message) c1) <> [].


(** Some list of eight strings contains every answer to a routed topic. *)
Definition eight_strings_suffice : Prop :=
  exists V : list string,
    List.length V = 8%nat /\
    forall (c : Config) (message : Message) (password r : string),
      In (topic message) routed_topics ->
      decode (payload message) = inr password ->
      In r (responses (log_after (on_message message) c)) ->
      In r V.

(* ===================================================================== *)
(** ** The rest of the script: connection, last will, message loop *)
(* ===================================================================== *)

(** What [on_connect] does: lines printed and subscriptions requested. *)
Inductive ConnectEvent : Type :=
| CPrint (line : string)                 (* print(line) *)
| CSubscribe (t : string) (qos : Z).     (* client.subscribe(t, qos) *)

Definition MQTT_ERR_SUCCESS : Z := 0.

(** [on_connect(client, userdata, flags, reasonCode, properties)].  The
    reason code is compared with [mqtt.MQTT_ERR_SUCCESS] by its value; the
    dictionary is only read, for the QoS. *)
Definition on_connect (c : Config) (reasonCode : Z) : list ConnectEvent :=
  if reasonCode =? MQTT_ERR_SUCCESS then
    [ CPrint "Success: Connection has been established!";
      CSubscribe "lock/lock" (mqtt_qos c);
      CSubscribe "lock/unlock" (mqtt_qos c);
      CSubscribe "lock/password/temp/activate" (mqtt_qos c);
      CSubscribe "lock/password/temp/deactivate" (mqtt_qos c) ]
  else
    [ CPrint "Failure: Connection could not be established!" ].

Fixpoint subscriptions (l : list ConnectEvent) : list (string * Z) :=
  match l with
  | [] => []
  | CSubscribe t qos :: rest => (t, qos) :: subscriptions rest
  | CPrint _ :: rest => subscriptions rest
  end.

(** The message registered by [slock.will_set]. *)
Record LastWill : Type := mkLastWill {
  will_topic : string;
  will_payload : string;
  will_qos : Z;
  will_retain : bool
}.

Definition will_set (c : Config) : LastWill :=
  mkLastWill MQTT_RESPONSE_TOPIC
             ("ERROR: Connection to Smart Lock " ++ mqtt_client_id c
              ++ " Lost")%string
             (mqtt_qos c) true.

(** [slock.loop_forever()] on the messages that arrive, in order: each is
    handed to its callback; an exception raised by a callback leaves the
    loop, and the messages after it are not processed. *)
Fixpoint loop_forever (inbound : list Message) : Py unit :=
  match inbound with
  | [] => ret tt
  | message :: rest => on_message message ;;; loop_forever rest
  end.

(** A computation that only appends to the log and does not read it. *)
Definition appends (m : Py unit) : Prop :=
  forall (c : Config) (l : list Event),
    m (mkWorld c l)
    = (fst (run m c), mkWorld (config_after m c) (l ++ log_after m c)).

(** A flag that holds 0 or 1. *)
Definition is_flag (z : Z) : Prop := z = 0 \/ z = 1.

(** The calls the callbacks may make when started from dictionary [c]:
    [lock.json] is the only file, the record dumped differs from [c] in
    the two flags at most, and a publication goes to [lock/update], not
    retained, at the QoS of [c], with a 30 second expiry and one of the
    twelve answers as payload. *)
Definition disciplined (c : Config) (e : Event) : Prop :=
  match e with
  | EOpenW path => path = "lock.json"
  | EDump path d => path = "lock.json" /\ same_settings c d
  | EClose path => path = "lock.json"
  | EPublish p =>
    pub_topic p = "lock/update" /\ pub_qos p = mqtt_qos c /\
    pub_retain p = false /\ pub_expiry p = 30 /\
    In (pub_payload p) vocabulary
  end.

Ltac unfold_callbacks :=
  cbv [appends run config_after log_after toggle_lock toggle_temp_password
       bind ret raise lift_result read_config assign_locked
       assign_mqtt_temp_active publish dump_config emit
       MQTT_RESPONSE_TOPIC config_options io_log snd fst].

Ltac run_callback :=
  cbv [run config_after log_after toggle_lock toggle_temp_password
       bind ret raise lift_result read_config assign_locked
       assign_mqtt_temp_active publish dump_config emit
       MQTT_RESPONSE_TOPIC config_options io_log snd fst app
       refusal save_then_answer response_publication].

Ltac reach l ta t pw :=
  exists (mkConfig l ta "1234" "admin" 1 "slock" "tcp"),
         (mkMessage t (encode pw)), pw;
  split; [simpl; tauto | split; [reflexivity | left; reflexivity]].

(* ===================================================================== *)
(** ** Basic facts *)
(* ===================================================================== *)

(** The codec on a few payloads: plain ASCII and a two-byte character
    decode; a stray 0xFF, an overlong form, a surrogate and a truncated
    sequence do not. *)
Example decode_ascii : decode (encode "1234") = inr "1234".
Proof. reflexivity. Qed.

Example decode_two_bytes :
  decode [x63; xc3; xa9]
  = inr (string_of_list_byte [x63; xc3; xa9]).
Proof. reflexivity. Qed.

Example decode_stray_byte : decode [xff] = inl UnicodeDecodeError.
Proof. reflexivity. Qed.

Example decode_overlong :
  decode [xc0; x80] = inl UnicodeDecodeError.
Proof. reflexivity. Qed.

Example decode_surrogate :
  decode [xed; xa0; x80] = inl UnicodeDecodeError.
Proof. reflexivity. Qed.

Example decode_truncated :
  decode [xe2; x82] = inl UnicodeDecodeError.
Proof. reflexivity. Qed.

(** Three runs in a row from an engaged lock with the temporary password
    inactive: a wrong password is refused, the permanent password
    disengages the lock, and the same request again finds it disengaged. *)
Example unlock_wrong_password :
  run (on_message (mkMessage "lock/unlock" (encode "nope")))
      (mkConfig 1 0 "1234" "admin" 1 "slock" "tcp")
  = (Returned tt,
     mkWorld (mkConfig 1 0 "1234" "admin" 1 "slock" "tcp")
       (refusal (mkConfig 1 0 "1234" "admin" 1 "slock" "tcp")
                "Failure: Unlocking Failed")).
Proof. reflexivity. Qed.

Example unlock_permanent_password :
  run (on_message (mkMessage "lock/unlock" (encode "admin")))
      (mkConfig 1 0 "1234" "admin" 1 "slock" "tcp")
  = (Returned tt,
     mkWorld (mkConfig 0 0 "1234" "admin" 1 "slock" "tcp")
       (save_then_answer (mkConfig 0 0 "1234" "admin" 1 "slock" "tcp")
                         "Success: Lock Now Disengaged")).
Proof. reflexivity. Qed.

Example unlock_permanent_password_again :
  run (on_message (mkMessage "lock/unlock" (encode "admin")))
      (mkConfig 0 0 "1234" "admin" 1 "slock" "tcp")
  = (Returned tt,
     mkWorld (mkConfig 0 0 "1234" "admin" 1 "slock" "tcp")
       (save_then_answer (mkConfig 0 0 "1234" "admin" 1 "slock" "tcp")
                         "Success: Lock Already Disengaged")).
Proof. reflexivity. Qed.

(** The inactive temporary password cannot activate itself. *)
Example activate_with_inactive_temporary :
  run (on_message
         (mkMessage "lock/password/temp/activate" (encode "1234")))
      (mkConfig 1 0 "1234" "admin" 1 "slock" "tcp")
  = (Returned tt,
     mkWorld (mkConfig 1 0 "1234" "admin" 1 "slock" "tcp")
       (refusal (mkConfig 1 0 "1234" "admin" 1 "slock" "tcp")
                "Failure: Temp Password Activation Failed")).
Proof. reflexivity. Qed.

(** A topic without a callback is dropped. *)
Example unrouted_topic :
  run (on_message (mkMessage "lock/update" (encode "admin")))
      (mkConfig 1 0 "1234" "admin" 1 "slock" "tcp")
  = (Returned tt, mkWorld (mkConfig 1 0 "1234" "admin" 1 "slock" "tcp") []).
Proof. reflexivity. Qed.

(** A payload that does not decode stops the callback at its first line. *)
Example undecodable_payload_raises :
  run (on_message (mkMessage "lock/unlock" [xff]))
      (mkConfig 1 1 "1234" "admin" 1 "slock" "tcp")
  = (Raised UnicodeDecodeError,
     mkWorld (mkConfig 1 1 "1234" "admin" 1 "slock" "tcp") []).
Proof. reflexivity. Qed.

Lemma truthy_true (z : Z) : truthy z = true <-> z <> 0.
Proof.
  unfold truthy. rewrite negb_true_iff. apply Z.eqb_neq.
Qed.

Lemma truthy_false (z : Z) : truthy z = false <-> z = 0.
Proof.
  unfold truthy. rewrite negb_false_iff. apply Z.eqb_eq.
Qed.

(** [authenticate] only ever answers 0, 1 or 2. *)
Lemma authenticate_range (g c : Config) (password : string) :
  authenticate g c password = 0 \/
  authenticate g c password = 1 \/
  authenticate g c password = 2.
Proof.
  unfold authenticate.
  destruct (mqtt_perm_pass c =? password)%string; auto.
  destruct (truthy (mqtt_temp_active c) && (mqtt_temp_pass g =? password)%string);
    auto.
Qed.

Lemma authenticate_permanent (g c : Config) (password : string) :
  authenticate g c password = 1 <-> password = mqtt_perm_pass c.
Proof.
  unfold authenticate.
  destruct (mqtt_perm_pass c =? password)%string eqn:E.
  - apply String.eqb_eq in E. split; auto.
  - apply String.eqb_neq in E. split.
    + destruct (truthy (mqtt_temp_active c)
                && (mqtt_temp_pass g =? password)%string); discriminate.
    + intros ->. contradiction.
Qed.

Lemma authenticate_temporary (g c : Config) (password : string) :
  authenticate g c password = 2 <->
  password <> mqtt_perm_pass c /\ mqtt_temp_active c <> 0 /\
  password = mqtt_temp_pass g.
Proof.
  unfold authenticate.
  destruct (mqtt_perm_pass c =? password)%string eqn:E.
  - apply String.eqb_eq in E. split; [discriminate|].
    intros [H _]. symmetry in E. contradiction.
  - apply String.eqb_neq in E.
    destruct (truthy (mqtt_temp_active c)) eqn:T;
      destruct (mqtt_temp_pass g =? password)%string eqn:P; simpl.
    + apply truthy_true in T. apply String.eqb_eq in P.
      split; intros; repeat split; auto.
    + apply String.eqb_neq in P. split; [discriminate|].
      intros (_ & _ & H). symmetry in H. contradiction.
    + apply truthy_false in T. split; [discriminate|].
      intros (_ & H & _). contradiction.
    + apply truthy_false in T. split; [discriminate|].
      intros (_ & H & _). contradiction.
Qed.

Lemma authenticate_neither (g c : Config) (password : string) :
  authenticate g c password = 0 <->
  password <> mqtt_perm_pass c /\
  ~ (mqtt_temp_active c <> 0 /\ password = mqtt_temp_pass g).
Proof.
  unfold authenticate.
  destruct (mqtt_perm_pass c =? password)%string eqn:E.
  - apply String.eqb_eq in E. split; [discriminate|].
    intros [H _]. symmetry in E. contradiction.
  - apply String.eqb_neq in E.
    destruct (truthy (mqtt_temp_active c)) eqn:T;
      destruct (mqtt_temp_pass g =? password)%string eqn:P; simpl.
    + apply truthy_true in T. apply String.eqb_eq in P.
      split; [discriminate|]. intros [_ H]. exfalso. apply H. auto.
    + apply String.eqb_neq in P. split; intros; repeat split; auto.
      intros [_ H']. symmetry in H'. contradiction.
    + apply truthy_false in T. split; intros; repeat split; auto.
      intros [H' _]. contradiction.
    + apply truthy_false in T. split; intros; repeat split; auto.
      intros [H' _]. contradiction.
Qed.

(* ===================================================================== *)
(** ** Symbolic runs of the callbacks *)
(* ===================================================================== *)

(** An undecodable payload: the exception leaves before anything is read,
    written or published. *)
Lemma toggle_lock_raises (c : Config) (message : Message) (e : Exn) :
  decode (payload message) = inl e ->
  run (toggle_lock message) c = (Raised e, mkWorld c []).
Proof.
  intros D. run_callback. rewrite D. reflexivity.
Qed.

Lemma toggle_temp_password_raises (c : Config) (message : Message) (e : Exn) :
  decode (payload message) = inl e ->
  run (toggle_temp_password message) c = (Raised e, mkWorld c []).
Proof.
  intros D. run_callback. rewrite D. reflexivity.
Qed.

Lemma toggle_lock_refused (c : Config) (message : Message) (password : string) :
  decode (payload message) = inr password ->
  authenticate c c password = 0 ->
  run (toggle_lock message) c =
  (Returned tt,
   mkWorld c (refusal c (if (topic message =? "lock/lock")%string
                         then "Failure: Locking Failed"
                         else "Failure: Unlocking Failed"))).
Proof.
  intros D A. run_callback. rewrite D, A. simpl.
  destruct (topic message =? "lock/lock")%string; reflexivity.
Qed.

Lemma toggle_lock_accepted (c : Config) (message : Message) (password : string) :
  decode (payload message) = inr password ->
  authenticate c c password <> 0 ->
  run (toggle_lock message) c =
  let c' := if lock_redundant c (topic message) then c
            else lock_toggled (authenticate c c password) c in
  (Returned tt,
   mkWorld c'
     (save_then_answer c'
        ("Success: Lock "
         ++ (if lock_redundant c (topic message) then "Already" else "Now")
         ++ " "
         ++ (if (topic message =? "lock/lock")%string
             then "Engaged" else "Disengaged"))%string)).
Proof.
  intros D A. apply Z.eqb_neq in A.
  run_callback. rewrite D, A. unfold lock_redundant, lock_toggled. simpl.
  destruct ((locked c =? 0) && (topic message =? "lock/unlock")%string
            || (locked c =? 1) && (topic message =? "lock/lock")%string);
    simpl; [reflexivity|].
  destruct ((authenticate c c password =? 2)
            && ((if locked c =? 1 then 0 else 1) =? 0)); reflexivity.
Qed.

Lemma toggle_temp_password_refused
      (c : Config) (message : Message) (password : string) :
  decode (payload message) = inr password ->
  authenticate c c password <> 1 ->
  run (toggle_temp_password message) c =
  (Returned tt,
   mkWorld c (refusal c
      (if (topic message =? "lock/password/temp/activate")%string
       then "Failure: Temp Password Activation Failed"
       else "Failure: Temp Password Deactivation Failed"))).
Proof.
  intros D A. apply Z.eqb_neq in A. run_callback. rewrite D, A. simpl.
  destruct (topic message =? "lock/password/temp/activate")%string;
    reflexivity.
Qed.

Lemma toggle_temp_password_accepted
      (c : Config) (message : Message) (password : string) :
  decode (payload message) = inr password ->
  authenticate c c password = 1 ->
  run (toggle_temp_password message) c =
  let c' := if temp_redundant c (topic message) then c
            else temp_toggled c in
  (Returned tt,
   mkWorld c'
     (save_then_answer c'
        ("Success: Temp Password "
         ++ (if temp_redundant c (topic message) then "Already" else "Now")
         ++ " "
         ++ (if (topic message =? "lock/password/temp/activate")%string
             then "Activated" else "Deactivated"))%string)).
Proof.
  intros D A. run_callback. rewrite D, A. unfold temp_redundant. simpl.
  destruct ((mqtt_temp_active c =? 0)
            && (topic message =? "lock/password/temp/deactivate")%string
            || (mqtt_temp_active c =? 1)
               && (topic message =? "lock/password/temp/activate")%string);
    reflexivity.
Qed.

(* ===================================================================== *)
(** ** Routing *)
(* ===================================================================== *)

Lemma on_message_lock (message : Message) :
  topic message = "lock/lock" \/ topic message = "lock/unlock" ->
  on_message message = toggle_lock message.
Proof.
  unfold on_message. intros [-> | ->]; reflexivity.
Qed.

Lemma on_message_temp (message : Message) :
  topic message = "lock/password/temp/activate"
  \/ topic message = "lock/password/temp/deactivate" ->
  on_message message = toggle_temp_password message.
Proof.
  unfold on_message. intros [-> | ->]; reflexivity.
Qed.

Lemma find_callback_cases (t : string) :
  find_callback message_callbacks t = Some toggle_lock
  \/ find_callback message_callbacks t = Some toggle_temp_password
  \/ find_callback message_callbacks t = None.
Proof.
  unfold message_callbacks, find_callback.
  repeat match goal with
         | |- context [if ?b then _ else _] => destruct b; auto
         end.
Qed.

Lemma on_message_cases (message : Message) :
  on_message message = toggle_lock message
  \/ on_message message = toggle_temp_password message
  \/ on_message message = ret tt.
Proof.
  unfold on_message.
  destruct (find_callback_cases (topic message)) as [H | [H | H]];
    rewrite H; auto.
Qed.

Lemma routed_topics_spelled (t : string) :
  In t routed_topics <->
  t = "lock/lock" \/ t = "lock/unlock"
  \/ t = "lock/password/temp/activate"
  \/ t = "lock/password/temp/deactivate".
Proof.
  unfold routed_topics. simpl. intuition congruence.
Qed.

(* ===================================================================== *)
(** ** Classification of passwords *)
(* ===================================================================== *)

(** C2.  [authenticate] answers 1 (permanent) exactly when the presented
    password is the permanent one; otherwise 2 (temporary and active)
    exactly when the temporary password is active and is the presented
    one; otherwise 0 (neither).  So every password that is neither the
    permanent nor the active temporary one is classified 0. *)
Theorem authenticate_classification (c : Config) (password : string) :
  (authenticate c c password = 1 <-> password = mqtt_perm_pass c) /\
  (authenticate c c password = 2 <->
   password <> mqtt_perm_pass c /\
   mqtt_temp_active c <> 0 /\ password = mqtt_temp_pass c) /\
  (authenticate c c password = 0 <->
   password <> mqtt_perm_pass c /\
   ~ (mqtt_temp_active c <> 0 /\ password = mqtt_temp_pass c)) /\
  (authenticate c c password = 0 \/ authenticate c c password = 1
   \/ authenticate c c password = 2).
Proof.
  split; [apply authenticate_permanent|].
  split; [apply authenticate_temporary|].
  split; [apply authenticate_neither|].
  apply authenticate_range.
Qed.

(** C4, as the script has it.  While the temporary password is inactive no
    password is classified 2; the stored temporary value itself is
    classified 0 when it differs from the permanent password and 1 when it
    coincides with it. *)
Theorem inactive_temporary_value (c : Config) :
  mqtt_temp_active c = 0 ->
  (forall password : string, authenticate c c password <> 2) /\
  (mqtt_temp_pass c <> mqtt_perm_pass c ->
   authenticate c c (mqtt_temp_pass c) = 0) /\
  (mqtt_temp_pass c = mqtt_perm_pass c ->
   authenticate c c (mqtt_temp_pass c) = 1).
Proof.
  intros Inactive. repeat split.
  - intros password H. apply authenticate_temporary in H.
    destruct H as (_ & Active & _). contradiction.
  - intros Differ. apply authenticate_neither. split; [assumption|].
    intros [Active _]. contradiction.
  - intros Same. apply authenticate_permanent. assumption.
Qed.

Lemma inactive_temporary_value_witness :
  (forall password : string,
      authenticate (mkConfig 1 0 "1234" "admin" 1 "slock" "tcp")
                   (mkConfig 1 0 "1234" "admin" 1 "slock" "tcp") password
      <> 2) /\
  authenticate (mkConfig 1 0 "1234" "admin" 1 "slock" "tcp")
               (mkConfig 1 0 "1234" "admin" 1 "slock" "tcp") "1234" = 0.
Proof.
  destruct (inactive_temporary_value
              (mkConfig 1 0 "1234" "admin" 1 "slock" "tcp") eq_refl)
    as (Never & Differ & _).
  split; [exact Never|].
  apply Differ. simpl. discriminate.
Defined.

(** C4, refuted as first stated: with the temporary password inactive and
    equal to the permanent one, the stored temporary value is classified 1,
    not 0. *)
Lemma inactive_temporary_value_may_be_permanent :
  mqtt_temp_active (mkConfig 1 0 "1234" "1234" 1 "slock" "tcp") = 0 /\
  authenticate (mkConfig 1 0 "1234" "1234" 1 "slock" "tcp")
               (mkConfig 1 0 "1234" "1234" 1 "slock" "tcp") "1234" = 1 /\
  ~ inactive_temporary_value_is_neither.
Proof.
  split; [reflexivity|]. split; [reflexivity|].
  intros Claim.
  specialize (Claim (mkConfig 1 0 "1234" "1234" 1 "slock" "tcp") eq_refl).
  discriminate Claim.
Qed.

(* ===================================================================== *)
(** ** Locking and unlocking *)
(* ===================================================================== *)

(** C1, as the script has it.  With the lock engaged and the temporary
    password active and different from the permanent one, an unlock
    request carrying the temporary password disengages the lock, retires
    the temporary password and is answered "Success: Lock Now Disengaged". *)
Theorem temporary_unlock_retires (c : Config) (message : Message) :
  mqtt_temp_active c <> 0 ->
  locked c = 1 ->
  topic message = "lock/unlock" ->
  decode (payload message) = inr (mqtt_temp_pass c) ->
  mqtt_temp_pass c <> mqtt_perm_pass c ->
  locked (config_after (on_message message) c) = 0 /\
  mqtt_temp_active (config_after (on_message message) c) = 0 /\
  responses (log_after (on_message message) c)
  = ["Success: Lock Now Disengaged"].
Proof.
  intros Active Locked Topic Decoded Differ.
  assert (authenticate c c (mqtt_temp_pass c) = 2) as Auth
      by (apply authenticate_temporary; auto).
  rewrite on_message_lock by auto.
  unfold config_after, log_after.
  rewrite (toggle_lock_accepted c message _ Decoded)
    by (rewrite Auth; discriminate).
  rewrite Auth, Topic. unfold lock_redundant, lock_toggled.
  rewrite Locked. simpl. auto.
Qed.

Lemma temporary_unlock_retires_witness :
  locked (config_after
            (on_message (mkMessage "lock/unlock" (encode "1234")))
            (mkConfig 1 1 "1234" "admin" 1 "slock" "tcp")) = 0 /\
  mqtt_temp_active (config_after
            (on_message (mkMessage "lock/unlock" (encode "1234")))
            (mkConfig 1 1 "1234" "admin" 1 "slock" "tcp")) = 0 /\
  responses (log_after
            (on_message (mkMessage "lock/unlock" (encode "1234")))
            (mkConfig 1 1 "1234" "admin" 1 "slock" "tcp"))
  = ["Success: Lock Now Disengaged"].
Proof.
  apply (temporary_unlock_retires
           (mkConfig 1 1 "1234" "admin" 1 "slock" "tcp")
           (mkMessage "lock/unlock" (encode "1234"))).
  - simpl. lia.
  - reflexivity.
  - reflexivity.
  - reflexivity.
  - simpl. discriminate.
Defined.

(** C1, refuted as first stated: when the temporary password equals the
    permanent one, the unlock is classified 1 and the temporary password
    stays active. *)
Lemma temporary_value_unlock_may_not_retire :
  run (on_message (mkMessage "lock/unlock" (encode "1234")))
      (mkConfig 1 1 "1234" "1234" 1 "slock" "tcp")
  = (Returned tt,
     mkWorld (mkConfig 0 1 "1234" "1234" 1 "slock" "tcp")
             (save_then_answer (mkConfig 0 1 "1234" "1234" 1 "slock" "tcp")
                               "Success: Lock Now Disengaged")) /\
  ~ temporary_value_unlock_retires.
Proof.
  split; [reflexivity|].
  intros Claim.
  destruct (Claim (mkConfig 1 1 "1234" "1234" 1 "slock" "tcp")
                  (mkMessage "lock/unlock" (encode "1234"))
                  eq_refl eq_refl eq_refl eq_refl) as (_ & Retired & _).
  discriminate Retired.
Qed.

(** C6.  With the lock already disengaged, an unlock request classified 2
    (temporary and active) is redundant: the dictionary is left as it was,
    so the temporary password stays active, and the answer says
    "Already". *)
Theorem redundant_temporary_unlock_keeps_it
        (c : Config) (message : Message) (password : string) :
  locked c = 0 ->
  mqtt_temp_active c <> 0 ->
  topic message = "lock/unlock" ->
  decode (payload message) = inr password ->
  authenticate c c password = 2 ->
  lock_redundant c (topic message) = true /\
  config_after (on_message message) c = c /\
  mqtt_temp_active (config_after (on_message message) c) <> 0 /\
  responses (log_after (on_message message) c)
  = ["Success: Lock Already Disengaged"].
Proof.
  intros Unlocked Active Topic Decoded Auth.
  assert (lock_redundant c (topic message) = true) as Redundant
      by (unfold lock_redundant; rewrite Unlocked, Topic; reflexivity).
  rewrite on_message_lock by auto.
  unfold config_after, log_after.
  rewrite (toggle_lock_accepted c message _ Decoded)
    by (rewrite Auth; discriminate).
  rewrite Redundant, Topic. simpl. auto.
Qed.

Lemma redundant_temporary_unlock_keeps_it_witness :
  config_after (on_message (mkMessage "lock/unlock" (encode "1234")))
               (mkConfig 0 1 "1234" "admin" 1 "slock" "tcp")
  = mkConfig 0 1 "1234" "admin" 1 "slock" "tcp" /\
  responses (log_after (on_message (mkMessage "lock/unlock" (encode "1234")))
                       (mkConfig 0 1 "1234" "admin" 1 "slock" "tcp"))
  = ["Success: Lock Already Disengaged"].
Proof.
  destruct (redundant_temporary_unlock_keeps_it
              (mkConfig 0 1 "1234" "admin" 1 "slock" "tcp")
              (mkMessage "lock/unlock" (encode "1234")) "1234")
    as (_ & Same & _ & Answer).
  - reflexivity.
  - simpl. lia.
  - reflexivity.
  - reflexivity.
  - reflexivity.
  - split; [exact Same | exact Answer].
Defined.

(** What [toggle_lock] can leave in the dictionary, whatever the message:
    the dictionary itself, or the toggled one. *)
Lemma toggle_lock_config (c : Config) (message : Message) :
  config_after (toggle_lock message) c = c
  \/ exists password : string,
      decode (payload message) = inr password /\
      authenticate c c password <> 0 /\
      lock_redundant c (topic message) = false /\
      config_after (toggle_lock message) c
      = lock_toggled (authenticate c c password) c.
Proof.
  unfold config_after.
  destruct (decode (payload message)) as [e | password] eqn:Decoded.
  - rewrite (toggle_lock_raises c message e Decoded). auto.
  - destruct (Z.eq_dec (authenticate c c password) 0) as [Refused | Accepted].
    + rewrite (toggle_lock_refused c message password Decoded Refused). auto.
    + rewrite (toggle_lock_accepted c message password Decoded Accepted).
      destruct (lock_redundant c (topic message)) eqn:Redundant; simpl; auto.
      right. exists password. auto.
Qed.

Lemma toggle_temp_password_config (c : Config) (message : Message) :
  config_after (toggle_temp_password message) c = c
  \/ config_after (toggle_temp_password message) c = temp_toggled c.
Proof.
  unfold config_after.
  destruct (decode (payload message)) as [e | password] eqn:Decoded.
  - rewrite (toggle_temp_password_raises c message e Decoded). auto.
  - destruct (Z.eq_dec (authenticate c c password) 1) as [Accepted | Refused].
    + rewrite (toggle_temp_password_accepted c message password
                 Decoded Accepted).
      destruct (temp_redundant c (topic message)); simpl; auto.
    + rewrite (toggle_temp_password_refused c message password
                 Decoded Refused). auto.
Qed.

Lemma same_settings_refl (c : Config) : same_settings c c.
Proof. repeat split. Qed.

Lemma same_settings_lock_toggled (a : Z) (c : Config) :
  same_settings c (lock_toggled a c).
Proof.
  unfold lock_toggled.
  destruct ((a =? 2) && (locked (set_locked (if locked c =? 1 then 0 else 1) c)
                         =? 0));
    repeat split.
Qed.

Lemma same_settings_temp_toggled (c : Config) :
  same_settings c (temp_toggled c).
Proof. repeat split. Qed.

(** A toggle on [lock/lock] ends engaged and keeps the temporary flag. *)
Lemma lock_toggled_on_lock (a : Z) (c : Config) :
  lock_redundant c "lock/lock" = false ->
  locked (lock_toggled a c) = 1 /\
  mqtt_temp_active (lock_toggled a c) = mqtt_temp_active c.
Proof.
  unfold lock_redundant, lock_toggled. simpl.
  rewrite andb_false_r, andb_true_r. simpl. intros NotLocked.
  rewrite NotLocked. simpl. rewrite andb_false_r. auto.
Qed.

(** C9.  A request on [lock/lock] never changes ["mqtt_temp_active"],
    whatever the payload: when it is accepted the lock ends engaged
    ([locked == 1]), so the retirement test, which needs [locked == 0]
    after the toggle, cannot succeed. *)
Theorem lock_request_keeps_temporary (c : Config) (message : Message) :
  topic message = "lock/lock" ->
  mqtt_temp_active (config_after (on_message message) c)
  = mqtt_temp_active c /\
  (forall password : string,
      decode (payload message) = inr password ->
      authenticate c c password <> 0 ->
      locked (config_after (on_message message) c) = 1).
Proof.
  intros Topic. rewrite on_message_lock by auto. split.
  - destruct (toggle_lock_config c message)
      as [Same | (password & _ & _ & Fresh & Toggled)].
    + rewrite Same. reflexivity.
    + rewrite Toggled. rewrite Topic in Fresh.
      apply (lock_toggled_on_lock _ _ Fresh).
  - intros password Decoded Accepted. unfold config_after.
    rewrite (toggle_lock_accepted c message password Decoded Accepted).
    rewrite Topic.
    destruct (lock_redundant c "lock/lock") eqn:Redundant; simpl.
    + unfold lock_redundant in Redundant. simpl in Redundant.
      rewrite andb_false_r, andb_true_r in Redundant. simpl in Redundant.
      apply Z.eqb_eq. assumption.
    + apply (lock_toggled_on_lock _ _ Redundant).
Qed.

Lemma lock_request_keeps_temporary_witness :
  mqtt_temp_active
    (config_after (on_message (mkMessage "lock/lock" (encode "1234")))
                  (mkConfig 0 1 "1234" "admin" 1 "slock" "tcp")) = 1 /\
  locked
    (config_after (on_message (mkMessage "lock/lock" (encode "1234")))
                  (mkConfig 0 1 "1234" "admin" 1 "slock" "tcp")) = 1.
Proof.
  destruct (lock_request_keeps_temporary
              (mkConfig 0 1 "1234" "admin" 1 "slock" "tcp")
              (mkMessage "lock/lock" (encode "1234")) eq_refl)
    as [Kept Engaged].
  split; [exact Kept|].
  apply (Engaged "1234"); [reflexivity | simpl; discriminate].
Defined.

(** C10.  Whatever the message, the callbacks never assign the permanent
    password, the temporary password, the QoS, the client id or the
    transport; [toggle_temp_password] never assigns ["locked"]; and
    [toggle_lock] leaves ["mqtt_temp_active"] as it was, or sets it to 0
    in the one case of a non-redundant request classified 2 that ends
    disengaged. *)
Theorem callbacks_frame (c : Config) (message : Message) :
  same_settings c (config_after (toggle_lock message) c) /\
  same_settings c (config_after (toggle_temp_password message) c) /\
  same_settings c (config_after (on_message message) c) /\
  locked (config_after (toggle_temp_password message) c) = locked c /\
  (mqtt_temp_active (config_after (toggle_lock message) c)
   = mqtt_temp_active c
   \/ (mqtt_temp_active (config_after (toggle_lock message) c) = 0 /\
       locked (config_after (toggle_lock message) c) = 0 /\
       lock_redundant c (topic message) = false /\
       exists password : string,
         decode (payload message) = inr password /\
         authenticate c c password = 2)).
Proof.
  assert (same_settings c (config_after (toggle_lock message) c)) as L.
  { destruct (toggle_lock_config c message)
      as [Same | (password & _ & _ & _ & Toggled)].
    - rewrite Same. apply same_settings_refl.
    - rewrite Toggled. apply same_settings_lock_toggled. }
  assert (same_settings c (config_after (toggle_temp_password message) c))
    as T.
  { destruct (toggle_temp_password_config c message) as [Same | Toggled].
    - rewrite Same. apply same_settings_refl.
    - rewrite Toggled. apply same_settings_temp_toggled. }
  split; [exact L|]. split; [exact T|]. split.
  - destruct (on_message_cases message) as [H | [H | H]]; rewrite H; auto.
    apply same_settings_refl.
  - split.
    + destruct (toggle_temp_password_config c message) as [Same | Toggled].
      * rewrite Same. reflexivity.
      * rewrite Toggled. reflexivity.
    + destruct (toggle_lock_config c message)
        as [Same | (password & Decoded & Accepted & Fresh & Toggled)].
      * rewrite Same. auto.
      * rewrite Toggled. unfold lock_toggled.
        destruct ((authenticate c c password =? 2)
                  && (locked (set_locked (if locked c =? 1 then 0 else 1) c)
                      =? 0)) eqn:Retire.
        -- right. apply andb_true_iff in Retire. destruct Retire as [A Z0].
           apply Z.eqb_eq in A. apply Z.eqb_eq in Z0.
           repeat split; auto. exists password. auto.
        -- left. reflexivity.
Qed.

(* ===================================================================== *)
(** ** Refused requests *)
(* ===================================================================== *)

(** C3, as the script has it.  A lock or unlock request classified 0, and
    an activation or deactivation request classified 0 or 2, leave the
    dictionary untouched and make a single call, the publication of the
    failure message of the request: [lock.json] is not opened.  In
    particular, while the temporary password is active and differs from
    the permanent one, presenting it on an activation or deactivation
    topic is refused. *)
Theorem refused_requests_change_nothing
        (c : Config) (message : Message) (password : string) :
  decode (payload message) = inr password ->
  (topic message = "lock/lock" \/ topic message = "lock/unlock" ->
   authenticate c c password = 0 ->
   run (on_message message) c
   = (Returned tt,
      mkWorld c (refusal c (if (topic message =? "lock/lock")%string
                            then "Failure: Locking Failed"
                            else "Failure: Unlocking Failed")))) /\
  (topic message = "lock/password/temp/activate"
   \/ topic message = "lock/password/temp/deactivate" ->
   authenticate c c password <> 1 ->
   run (on_message message) c
   = (Returned tt,
      mkWorld c (refusal c
         (if (topic message =? "lock/password/temp/activate")%string
          then "Failure: Temp Password Activation Failed"
          else "Failure: Temp Password Deactivation Failed")))) /\
  (topic message = "lock/password/temp/activate"
   \/ topic message = "lock/password/temp/deactivate" ->
   mqtt_temp_active c <> 0 ->
   password = mqtt_temp_pass c ->
   mqtt_temp_pass c <> mqtt_perm_pass c ->
   authenticate c c password = 2 /\
   run (on_message message) c
   = (Returned tt,
      mkWorld c (refusal c
         (if (topic message =? "lock/password/temp/activate")%string
          then "Failure: Temp Password Activation Failed"
          else "Failure: Temp Password Deactivation Failed")))).
Proof.
  intros Decoded. split; [|split].
  - intros Topic Refused. rewrite on_message_lock by assumption.
    apply (toggle_lock_refused c message password Decoded Refused).
  - intros Topic Refused. rewrite on_message_temp by assumption.
    apply (toggle_temp_password_refused c message password Decoded Refused).
  - intros Topic Active Presented Differ.
    assert (authenticate c c password = 2) as Auth
        by (apply authenticate_temporary; subst password; auto).
    split; [assumption|].
    rewrite on_message_temp by assumption.
    apply (toggle_temp_password_refused c message password Decoded).
    rewrite Auth. discriminate.
Qed.

Lemma refused_requests_change_nothing_witness :
  run (on_message (mkMessage "lock/unlock" (encode "nope")))
      (mkConfig 1 1 "1234" "admin" 1 "slock" "tcp")
  = (Returned tt,
     mkWorld (mkConfig 1 1 "1234" "admin" 1 "slock" "tcp")
       (refusal (mkConfig 1 1 "1234" "admin" 1 "slock" "tcp")
                "Failure: Unlocking Failed")).
Proof.
  destruct (refused_requests_change_nothing
              (mkConfig 1 1 "1234" "admin" 1 "slock" "tcp")
              (mkMessage "lock/unlock" (encode "nope")) "nope" eq_refl)
    as (Lock & _ & _).
  apply Lock; [right; reflexivity | reflexivity].
Defined.

(** C3, refuted as first stated: when the active temporary password equals
    the permanent one, presenting it on the activation topic is classified
    1 and accepted. *)
Lemma temporary_value_may_manage :
  run (on_message
         (mkMessage "lock/password/temp/activate" (encode "1234")))
      (mkConfig 1 1 "1234" "1234" 1 "slock" "tcp")
  = (Returned tt,
     mkWorld (mkConfig 1 1 "1234" "1234" 1 "slock" "tcp")
       (save_then_answer (mkConfig 1 1 "1234" "1234" 1 "slock" "tcp")
                         "Success: Temp Password Already Activated")) /\
  ~ temporary_value_cannot_manage.
Proof.
  split; [reflexivity|].
  intros Claim.
  destruct (Claim (mkConfig 1 1 "1234" "1234" 1 "slock" "tcp")
                  (mkMessage "lock/password/temp/activate" (encode "1234"))
                  eq_refl (or_introl eq_refl) eq_refl)
    as (_ & NoDump & _).
  discriminate NoDump.
Qed.

(* ===================================================================== *)
(** ** Repeated requests *)
(* ===================================================================== *)

Lemma lock_toggled_not_redundant_twice (a : Z) (c : Config) (t : string) :
  locked c = 0 \/ locked c = 1 ->
  t = "lock/lock" \/ t = "lock/unlock" ->
  lock_redundant c t = false ->
  lock_redundant (lock_toggled a c) t = true.
Proof.
  intros Flag Topic. unfold lock_redundant, lock_toggled.
  destruct Flag as [-> | ->]; destruct Topic as [-> | ->]; simpl;
    try discriminate; intros _;
    destruct (a =? 2); reflexivity.
Qed.

(** C5, as the script has it.  After an accepted lock or unlock request,
    the same request again leaves ["locked"] as the first left it.  If the
    password is still accepted, the second run is redundant: it leaves the
    whole dictionary alone, rewrites [lock.json] all the same and answers
    "Success: Lock Already ...".  The password is still accepted in every
    case but one: the first request was a non-redundant unlock classified
    2, which retired the temporary password. *)
Theorem repeated_request
        (c : Config) (message : Message) (password : string) :
  locked c = 0 \/ locked c = 1 ->
  topic message = "lock/lock" \/ topic message = "lock/unlock" ->
  decode (payload message) = inr password ->
  authenticate c c password <> 0 ->
  locked (config_after (on_message message)
                       (config_after (on_message message) c))
  = locked (config_after (on_message message) c) /\
  (authenticate (config_after (on_message message) c)
                (config_after (on_message message) c) password <> 0 ->
   run (on_message message) (config_after (on_message message) c)
   = (Returned tt,
      mkWorld (config_after (on_message message) c)
        (save_then_answer (config_after (on_message message) c)
           (if (topic message =? "lock/lock")%string
            then "Success: Lock Already Engaged"
            else "Success: Lock Already Disengaged")))) /\
  (authenticate (config_after (on_message message) c)
                (config_after (on_message message) c) password = 0 <->
   authenticate c c password = 2 /\ topic message = "lock/unlock"
   /\ locked c = 1).
Proof.
  intros Flag Topic Decoded Accepted.
  rewrite on_message_lock by assumption.
  set (c1 := config_after (toggle_lock message) c).
  assert (lock_redundant c1 (topic message) = true) as Redundant1.
  { unfold c1, config_after.
    rewrite (toggle_lock_accepted c message password Decoded Accepted).
    destruct (lock_redundant c (topic message)) eqn:Redundant; simpl.
    - assumption.
    - apply lock_toggled_not_redundant_twice; assumption. }
  split; [|split].
  - destruct (toggle_lock_config c1 message)
      as [Same | (p & _ & _ & Fresh & _)].
    + rewrite Same. reflexivity.
    + rewrite Fresh in Redundant1. discriminate.
  - intros Still.
    rewrite (toggle_lock_accepted c1 message password Decoded Still).
    rewrite Redundant1. simpl.
    destruct (topic message =? "lock/lock")%string; reflexivity.
  - unfold c1, config_after.
    rewrite (toggle_lock_accepted c message password Decoded Accepted).
    destruct (authenticate_range c c password) as [A | [A | A]];
      [contradiction | |].
    + (* permanent: the password stays permanent *)
      split.
      * intros Gone. exfalso.
        apply authenticate_permanent in A.
        destruct (lock_redundant c (topic message)); simpl in Gone.
        -- apply authenticate_neither in Gone. destruct Gone. contradiction.
        -- apply authenticate_neither in Gone. destruct Gone as [N _].
           apply N. rewrite A.
           symmetry. apply (same_settings_lock_toggled _ c).
      * intros (Two & _). rewrite A in Two. discriminate.
    + (* temporary *)
      rewrite A.
      pose proof A as A'. apply authenticate_temporary in A'.
      destruct A' as (NotPerm & Active & IsTemp).
      unfold lock_redundant, lock_toggled.
      destruct Flag as [F | F]; destruct Topic as [T | T]; rewrite F, T;
        simpl; split.
      * intros Gone. apply authenticate_neither in Gone. simpl in Gone.
        destruct Gone as [_ N]. exfalso. apply N. auto.
      * intros (_ & U & _). discriminate.
      * intros Gone. apply authenticate_neither in Gone. simpl in Gone.
        destruct Gone as [_ N]. exfalso. apply N. auto.
      * intros (_ & _ & L). discriminate.
      * intros Gone. apply authenticate_neither in Gone. simpl in Gone.
        destruct Gone as [_ N]. exfalso. apply N. auto.
      * intros (_ & U & _). discriminate.
      * intros _. auto.
      * intros _. apply authenticate_neither. simpl. split; [assumption|].
        intros [N _]. apply N. reflexivity.
Qed.

Lemma repeated_request_witness :
  run (on_message (mkMessage "lock/unlock" (encode "admin")))
      (config_after (on_message (mkMessage "lock/unlock" (encode "admin")))
                    (mkConfig 1 1 "1234" "admin" 1 "slock" "tcp"))
  = (Returned tt,
     mkWorld (mkConfig 0 1 "1234" "admin" 1 "slock" "tcp")
       (save_then_answer (mkConfig 0 1 "1234" "admin" 1 "slock" "tcp")
                         "Success: Lock Already Disengaged")).
Proof.
  destruct (repeated_request
              (mkConfig 1 1 "1234" "admin" 1 "slock" "tcp")
              (mkMessage "lock/unlock" (encode "admin")) "admin")
    as (_ & Again & _).
  - right. reflexivity.
  - right. reflexivity.
  - reflexivity.
  - simpl. discriminate.
  - apply Again. simpl. discriminate.
Defined.

(** C5, refuted as first stated: an unlock with the temporary password is
    accepted once and retires the password, so the same request again is
    refused: no "Already" answer and no write. *)
Lemma repeated_temporary_unlock_is_refused :
  run (on_message (mkMessage "lock/unlock" (encode "1234")))
      (mkConfig 1 1 "1234" "admin" 1 "slock" "tcp")
  = (Returned tt,
     mkWorld (mkConfig 0 0 "1234" "admin" 1 "slock" "tcp")
       (save_then_answer (mkConfig 0 0 "1234" "admin" 1 "slock" "tcp")
                         "Success: Lock Now Disengaged")) /\
  run (on_message (mkMessage "lock/unlock" (encode "1234")))
      (mkConfig 0 0 "1234" "admin" 1 "slock" "tcp")
  = (Returned tt,
     mkWorld (mkConfig 0 0 "1234" "admin" 1 "slock" "tcp")
       (refusal (mkConfig 0 0 "1234" "admin" 1 "slock" "tcp")
                "Failure: Unlocking Failed")) /\
  ~ repeated_request_is_redundant.
Proof.
  split; [reflexivity|]. split; [reflexivity|].
  intros Claim.
  destruct (Claim (mkConfig 1 1 "1234" "admin" 1 "slock" "tcp")
                  (mkMessage "lock/unlock" (encode "1234")) "1234")
    as (_ & _ & Written).
  - right. reflexivity.
  - right. reflexivity.
  - right. reflexivity.
  - reflexivity.
  - simpl. discriminate.
  - apply Written. reflexivity.
Qed.

(* ===================================================================== *)
(** ** Saving the dictionary *)
(* ===================================================================== *)






(* ===================================================================== *)
(** ** The answers *)
(* ===================================================================== *)

Lemma vocabulary_length : List.length vocabulary = 12%nat.
Proof. reflexivity. Qed.

Lemma vocabulary_NoDup : NoDup vocabulary.
Proof.
  unfold vocabulary, lock_vocabulary, temp_vocabulary. simpl.
  repeat (constructor; [simpl; intuition discriminate|]).
  constructor.
Qed.

(** [toggle_lock] answers once, within its six strings, unless the payload
    does not decode, in which case it does not answer. *)
Lemma toggle_lock_answers (c : Config) (message : Message) :
  (exists e : Exn,
      decode (payload message) = inl e /\
      responses (log_after (toggle_lock message) c) = [])
  \/ (exists (password r : string),
      decode (payload message) = inr password /\
      responses (log_after (toggle_lock message) c) = [r] /\
      In r lock_vocabulary).
Proof.
  unfold log_after.
  destruct (decode (payload message)) as [e | password] eqn:Decoded.
  - left. exists e. rewrite (toggle_lock_raises c message e Decoded). auto.
  - right. exists password.
    destruct (Z.eq_dec (authenticate c c password) 0) as [Refused | Accepted].
    + rewrite (toggle_lock_refused c message password Decoded Refused).
      destruct (topic message =? "lock/lock")%string;
        eexists; (split; [reflexivity|]); (split; [reflexivity|]);
        simpl; tauto.
    + rewrite (toggle_lock_accepted c message password Decoded Accepted).
      destruct (lock_redundant c (topic message));
        destruct (topic message =? "lock/lock")%string;
        eexists; (split; [reflexivity|]); (split; [reflexivity|]);
        simpl; tauto.
Qed.

Lemma toggle_temp_password_answers (c : Config) (message : Message) :
  (exists e : Exn,
      decode (payload message) = inl e /\
      responses (log_after (toggle_temp_password message) c) = [])
  \/ (exists (password r : string),
      decode (payload message) = inr password /\
      responses (log_after (toggle_temp_password message) c) = [r] /\
      In r temp_vocabulary).
Proof.
  unfold log_after.
  destruct (decode (payload message)) as [e | password] eqn:Decoded.
  - left. exists e.
    rewrite (toggle_temp_password_raises c message e Decoded). auto.
  - right. exists password.
    destruct (Z.eq_dec (authenticate c c password) 1) as [Accepted | Refused].
    + rewrite (toggle_temp_password_accepted c message password
                 Decoded Accepted).
      destruct (temp_redundant c (topic message));
        destruct (topic message =? "lock/password/temp/activate")%string;
        eexists; (split; [reflexivity|]); (split; [reflexivity|]);
        simpl; tauto.
    + rewrite (toggle_temp_password_refused c message password
                 Decoded Refused).
      destruct (topic message =? "lock/password/temp/activate")%string;
        eexists; (split; [reflexivity|]); (split; [reflexivity|]);
        simpl; tauto.
Qed.

(** Each of the twelve strings is the answer to some routed request. *)
Lemma vocabulary_reached (r : string) :
  In r vocabulary ->
  exists (c : Config) (message : Message) (password : string),
    In (topic message) routed_topics /\
    decode (payload message) = inr password /\
    In r (responses (log_after (on_message message) c)).
Proof.
  unfold vocabulary, lock_vocabulary, temp_vocabulary. simpl.
  intros [<- | [<- | [<- | [<- | [<- | [<- | [<- | [<- | [<- | [<- | [<- |
         [<- | []]]]]]]]]]]]].
  - reach 1 0 "lock/lock" "admin".
  - reach 0 0 "lock/lock" "admin".
  - reach 0 0 "lock/unlock" "admin".
  - reach 1 0 "lock/unlock" "admin".
  - reach 1 0 "lock/lock" "nope".
  - reach 1 0 "lock/unlock" "nope".
  - reach 1 1 "lock/password/temp/activate" "admin".
  - reach 1 0 "lock/password/temp/activate" "admin".
  - reach 1 0 "lock/password/temp/deactivate" "admin".
  - reach 1 1 "lock/password/temp/deactivate" "admin".
  - reach 1 0 "lock/password/temp/activate" "nope".
  - reach 1 0 "lock/password/temp/deactivate" "nope".
Qed.

(** C8, as the script has it.  The answers form a closed vocabulary of
    twelve distinct strings: four successes and two failures per callback.
    Whatever the message, nothing outside it is published; a routed
    request whose payload decodes is answered exactly once, from it; and
    each of the twelve is the answer to some routed request. *)
Theorem responses_in_vocabulary (c : Config) (message : Message) :
  List.length vocabulary = 12%nat /\
  NoDup vocabulary /\
  (forall r : string,
      In r (responses (log_after (on_message message) c)) ->
      In r vocabulary) /\
  (forall password : string,
      In (topic message) routed_topics ->
      decode (payload message) = inr password ->
      exists r : string,
        responses (log_after (on_message message) c) = [r] /\
        In r vocabulary) /\
  (forall r : string,
      In r vocabulary ->
      exists (c' : Config) (message' : Message) (password : string),
        In (topic message') routed_topics /\
        decode (payload message') = inr password /\
        In r (responses (log_after (on_message message') c'))).
Proof.
  split; [apply vocabulary_length|].
  split; [apply vocabulary_NoDup|].
  split; [|split].
  - intros r Published.
    destruct (on_message_cases message) as [H | [H | H]];
      rewrite H in Published.
    + destruct (toggle_lock_answers c message)
        as [(e & _ & Silent) | (p & r' & _ & Once & Known)].
      * rewrite Silent in Published. contradiction.
      * rewrite Once in Published. destruct Published as [<- | []].
        apply in_or_app. left. assumption.
    + destruct (toggle_temp_password_answers c message)
        as [(e & _ & Silent) | (p & r' & _ & Once & Known)].
      * rewrite Silent in Published. contradiction.
      * rewrite Once in Published. destruct Published as [<- | []].
        apply in_or_app. right. assumption.
    + contradiction.
  - intros password Routed Decoded.
    apply routed_topics_spelled in Routed.
    assert (topic message = "lock/lock" \/ topic message = "lock/unlock"
            \/ (topic message = "lock/password/temp/activate"
                \/ topic message = "lock/password/temp/deactivate"))
      as [L | [U | T]] by tauto.
    + rewrite on_message_lock by auto.
      destruct (toggle_lock_answers c message)
        as [(e & Bad & _) | (p & r & _ & Once & Known)];
        [rewrite Bad in Decoded; discriminate|].
      exists r. split; [assumption|]. apply in_or_app. auto.
    + rewrite on_message_lock by auto.
      destruct (toggle_lock_answers c message)
        as [(e & Bad & _) | (p & r & _ & Once & Known)];
        [rewrite Bad in Decoded; discriminate|].
      exists r. split; [assumption|]. apply in_or_app. auto.
    + rewrite on_message_temp by auto.
      destruct (toggle_temp_password_answers c message)
        as [(e & Bad & _) | (p & r & _ & Once & Known)];
        [rewrite Bad in Decoded; discriminate|].
      exists r. split; [assumption|]. apply in_or_app. auto.
  - apply vocabulary_reached.
Qed.

(** C8, refuted as first stated: twelve distinct strings are published on
    routed topics, so no list of eight holds them all. *)
Lemma eight_strings_do_not_suffice :
  responses
    (log_after (on_message (mkMessage "lock/password/temp/activate"
                                      (encode "admin")))
               (mkConfig 1 0 "1234" "admin" 1 "slock" "tcp"))
  = ["Success: Temp Password Now Activated"] /\
  ~ eight_strings_suffice.
Proof.
  split; [reflexivity|].
  intros (V & Eight & Covers).
  assert (incl vocabulary V) as Within.
  { intros r Known.
    destruct (vocabulary_reached r Known)
      as (c & message & password & Routed & Decoded & Published).
    apply (Covers c message password r Routed Decoded Published). }
  pose proof (NoDup_incl_length vocabulary_NoDup Within) as Count.
  rewrite vocabulary_length, Eight in Count. lia.
Qed.

(* ===================================================================== *)
(** ** Shape of a run *)
(* ===================================================================== *)

Lemma toggle_lock_appends (message : Message) : appends (toggle_lock message).
Proof.
  unfold_callbacks. intros c l.
  destruct (decode (payload message)) as [e | password].
  - simpl. rewrite app_nil_r. reflexivity.
  - simpl.
    destruct (negb (authenticate c c password =? 0)).
    + destruct (negb ((locked c =? 0) && (topic message =? "lock/unlock")%string
                      || (locked c =? 1) && (topic message =? "lock/lock")%string)).
      * simpl.
        destruct ((authenticate c c password =? 2)
                  && ((if locked c =? 1 then 0 else 1) =? 0));
          simpl; repeat rewrite <- app_assoc; reflexivity.
      * simpl. repeat rewrite <- app_assoc. reflexivity.
    + simpl. reflexivity.
Qed.

Lemma toggle_temp_password_appends (message : Message) :
  appends (toggle_temp_password message).
Proof.
  unfold_callbacks. intros c l.
  destruct (decode (payload message)) as [e | password].
  - simpl. rewrite app_nil_r. reflexivity.
  - simpl.
    destruct (authenticate c c password =? 1).
    + destruct (negb ((mqtt_temp_active c =? 0)
                      && (topic message =? "lock/password/temp/deactivate")%string
                      || (mqtt_temp_active c =? 1)
                         && (topic message =? "lock/password/temp/activate")%string));
        simpl; repeat rewrite <- app_assoc; reflexivity.
    + simpl. reflexivity.
Qed.

Lemma ret_appends : appends (ret tt).
Proof.
  intros c l. unfold run, config_after, log_after, ret. simpl.
  rewrite app_nil_r. reflexivity.
Qed.

Lemma on_message_appends (message : Message) : appends (on_message message).
Proof.
  destruct (on_message_cases message) as [H | [H | H]]; rewrite H.
  - apply toggle_lock_appends.
  - apply toggle_temp_password_appends.
  - apply ret_appends.
Qed.

Lemma bind_appends (m k : Py unit) :
  appends m -> appends k -> appends (m ;;; k).
Proof.
  intros Hm Hk c l.
  unfold config_after, log_after. unfold run, bind.
  destruct (m (mkWorld c [])) as [o [cw lw]] eqn:E.
  assert (m (mkWorld c l) = (o, mkWorld cw (l ++ lw))) as A.
  { rewrite (Hm c l). unfold config_after, log_after. unfold run.
    rewrite E. reflexivity. }
  rewrite A. destruct o as [[] | e]; simpl.
  - rewrite (Hk cw (l ++ lw)), (Hk cw lw). simpl.
    rewrite <- app_assoc. reflexivity.
  - reflexivity.
Qed.

Lemma loop_forever_appends (inbound : list Message) :
  appends (loop_forever inbound).
Proof.
  induction inbound as [| message rest IH]; simpl.
  - apply ret_appends.
  - apply bind_appends; [apply on_message_appends | exact IH].
Qed.

(** The loop, one message at a time. *)
Lemma loop_forever_step (c : Config) (message : Message) (rest : list Message) :
  run (loop_forever (message :: rest)) c
  = match fst (run (on_message message) c) with
    | Returned _ =>
      (fst (run (loop_forever rest) (config_after (on_message message) c)),
       mkWorld
         (config_after (loop_forever rest)
                       (config_after (on_message message) c))
         (log_after (on_message message) c
          ++ log_after (loop_forever rest)
                       (config_after (on_message message) c)))
    | Raised e =>
      (Raised e,
       mkWorld (config_after (on_message message) c)
               (log_after (on_message message) c))
    end.
Proof.
  unfold run at 1. simpl. unfold bind.
  unfold config_after, log_after, run.
  destruct (on_message message (mkWorld c [])) as [o [c1 l1]]. simpl.
  destruct o as [[] | e]; [|reflexivity].
  rewrite (loop_forever_appends rest c1 l1). reflexivity.
Qed.

(** Induction over the loop: a relation between the starting dictionary,
    the calls made and the final dictionary that holds of the empty run
    and extends backwards over one message holds of every run. *)
Lemma loop_forever_induction (Q : Config -> list Event -> Config -> Prop) :
  (forall c : Config, Q c [] c) ->
  (forall (c : Config) (message : Message) (l2 : list Event) (c2 : Config),
      Q (config_after (on_message message) c) l2 c2 ->
      Q c (log_after (on_message message) c ++ l2) c2) ->
  forall (inbound : list Message) (c : Config),
    Q c (log_after (loop_forever inbound) c)
        (config_after (loop_forever inbound) c).
Proof.
  intros Base Step inbound.
  induction inbound as [| message rest IH]; intros c.
  - apply Base.
  - unfold log_after at 1, config_after at 1.
    rewrite loop_forever_step.
    destruct (fst (run (on_message message) c)) as [[] | e]; simpl.
    + apply Step. apply IH.
    + rewrite <- (app_nil_r (log_after (on_message message) c)).
      apply Step. apply Base.
Qed.

Lemma same_settings_trans (a b c : Config) :
  same_settings a b -> same_settings b c -> same_settings a c.
Proof.
  unfold same_settings.
  intros (A1 & A2 & A3 & A4 & A5) (B1 & B2 & B3 & B4 & B5).
  repeat split; congruence.
Qed.

(** The four ways a message can go: the callback raises at once; the
    topic has no callback; the request is refused; the request is
    accepted. *)
Lemma on_message_shape (c : Config) (message : Message) :
  (exists e : Exn, run (on_message message) c = (Raised e, mkWorld c []))
  \/ run (on_message message) c = (Returned tt, mkWorld c [])
  \/ (exists r : string,
         In r vocabulary /\
         run (on_message message) c
         = (Returned tt, mkWorld c (refusal c r)))
  \/ (exists (c' : Config) (r : string),
         In r vocabulary /\ same_settings c c' /\
         (is_flag (locked c) -> is_flag (locked c')) /\
         (is_flag (mqtt_temp_active c) -> is_flag (mqtt_temp_active c')) /\
         run (on_message message) c
         = (Returned tt, mkWorld c' (save_then_answer c' r))).
Proof.
  destruct (on_message_cases message) as [H | [H | H]]; rewrite H.
  - destruct (decode (payload message)) as [e | password] eqn:Decoded.
    + left. exists e. apply toggle_lock_raises. assumption.
    + right. right.
      destruct (Z.eq_dec (authenticate c c password) 0) as [Refused | Accepted].
      * left.
        rewrite (toggle_lock_refused c message password Decoded Refused).
        eexists. split; [|reflexivity].
        destruct (topic message =? "lock/lock")%string; simpl; tauto.
      * right.
        rewrite (toggle_lock_accepted c message password Decoded Accepted).
        simpl. eexists. eexists.
        split; [|split; [|split; [|split; [|reflexivity]]]].
        -- destruct (lock_redundant c (topic message));
             destruct (topic message =? "lock/lock")%string; simpl; tauto.
        -- destruct (lock_redundant c (topic message));
             [apply same_settings_refl | apply same_settings_lock_toggled].
        -- destruct (lock_redundant c (topic message)); [auto|].
           intros _. unfold lock_toggled, is_flag.
           destruct (locked c =? 1);
             destruct (authenticate c c password =? 2); simpl; auto.
        -- destruct (lock_redundant c (topic message)); [auto|].
           unfold lock_toggled, is_flag.
           destruct (locked c =? 1);
             destruct (authenticate c c password =? 2); simpl; auto.
  - destruct (decode (payload message)) as [e | password] eqn:Decoded.
    + left. exists e. apply toggle_temp_password_raises. assumption.
    + right. right.
      destruct (Z.eq_dec (authenticate c c password) 1) as [Accepted | Refused].
      * right.
        rewrite (toggle_temp_password_accepted c message password
                   Decoded Accepted).
        simpl. eexists. eexists.
        split; [|split; [|split; [|split; [|reflexivity]]]].
        -- destruct (temp_redundant c (topic message));
             destruct (topic message =? "lock/password/temp/activate")%string;
             simpl; tauto.
        -- destruct (temp_redundant c (topic message));
             [apply same_settings_refl | apply same_settings_temp_toggled].
        -- destruct (temp_redundant c (topic message)); auto.
        -- destruct (temp_redundant c (topic message)); [auto|].
           intros _. unfold temp_toggled, is_flag.
           destruct (mqtt_temp_active c =? 1); simpl; auto.
      * left.
        rewrite (toggle_temp_password_refused c message password
                   Decoded Refused).
        eexists. split; [|reflexivity].
        destruct (topic message =? "lock/password/temp/activate")%string;
          simpl; tauto.
  - right. left. reflexivity.
Qed.

(* ===================================================================== *)
(** ** Connection and last will *)
(* ===================================================================== *)

Lemma find_callback_routed (t : string) :
  find_callback message_callbacks t <> None <-> In t routed_topics.
Proof.
  rewrite routed_topics_spelled.
  unfold message_callbacks, find_callback.
  destruct ("lock/lock" =? t)%string eqn:E1;
    [apply String.eqb_eq in E1; split; [auto | discriminate]|].
  destruct ("lock/unlock" =? t)%string eqn:E2;
    [apply String.eqb_eq in E2; split; [auto | discriminate]|].
  destruct ("lock/password/temp/activate" =? t)%string eqn:E3;
    [apply String.eqb_eq in E3; split; [auto | discriminate]|].
  destruct ("lock/password/temp/deactivate" =? t)%string eqn:E4;
    [apply String.eqb_eq in E4; split; [auto | discriminate]|].
  apply String.eqb_neq in E1, E2, E3, E4.
  split; [intros N; exfalso; apply N; reflexivity|].
  intros [H | [H | [H | H]]]; symmetry in H; contradiction.
Qed.

Lemma on_message_unrouted (message : Message) :
  ~ In (topic message) routed_topics -> on_message message = ret tt.
Proof.
  intros N. unfold on_message.
  destruct (find_callback message_callbacks (topic message)) eqn:F;
    [|reflexivity].
  exfalso. apply N. apply find_callback_routed. rewrite F. discriminate.
Qed.

(** X1.  On a successful connection [on_connect] subscribes, at the
    configured QoS, to exactly the topics that have a callback: every
    subscription can be served and every callback can be reached.  On any
    other reason code it subscribes to nothing. *)
Theorem on_connect_subscribes_routed_topics (c : Config) (reasonCode : Z) :
  (reasonCode = 0 ->
   map fst (subscriptions (on_connect c reasonCode)) = routed_topics /\
   (forall (t : string) (qos : Z),
       In (t, qos) (subscriptions (on_connect c reasonCode)) ->
       qos = mqtt_qos c /\ find_callback message_callbacks t <> None) /\
   (forall t : string,
       find_callback message_callbacks t <> None ->
       In (t, mqtt_qos c) (subscriptions (on_connect c reasonCode)))) /\
  (reasonCode <> 0 -> subscriptions (on_connect c reasonCode) = []).
Proof.
  split.
  - intros ->. split; [reflexivity|]. split.
    + intros t qos Subscribed. simpl in Subscribed.
      destruct Subscribed as [E | [E | [E | [E | []]]]];
        inversion E; subst; (split; [reflexivity|]);
        apply find_callback_routed; apply routed_topics_spelled; auto.
    + intros t Served. apply find_callback_routed in Served.
      apply routed_topics_spelled in Served. simpl.
      destruct Served as [-> | [-> | [-> | ->]]]; auto.
  - intros Failed. unfold on_connect, MQTT_ERR_SUCCESS.
    apply Z.eqb_neq in Failed. rewrite Failed. reflexivity.
Qed.

Lemma on_message_responses_known (c : Config) (message : Message) (r : string) :
  In r (responses (log_after (on_message message) c)) -> In r vocabulary.
Proof.
  unfold log_after.
  destruct (on_message_shape c message)
    as [[e Run] | [Run | [(r' & Known & Run) | (c' & r' & Known & _ & _ & _ & Run)]]];
    rewrite Run; simpl; try tauto.
  - intros [<- | []]. assumption.
  - intros [<- | []]. assumption.
Qed.

(** X2.  The last will registered at start-up goes to the answer topic,
    retained, and its text is none of the twelve answers, whatever the
    client id: no answer of a callback can be taken for the announcement
    of a lost connection. *)
Theorem last_will_is_no_answer (c : Config) :
  will_topic (will_set c) = "lock/update" /\
  will_retain (will_set c) = true /\
  will_qos (will_set c) = mqtt_qos c /\
  ~ In (will_payload (will_set c)) vocabulary /\
  (forall (c0 : Config) (message : Message) (r : string),
      In r (responses (log_after (on_message message) c0)) ->
      r <> will_payload (will_set c)).
Proof.
  assert (~ In (will_payload (will_set c)) vocabulary) as Outside.
  { unfold vocabulary, lock_vocabulary, temp_vocabulary. simpl.
    intuition discriminate. }
  repeat split; try assumption.
  intros c0 message r Published Same. subst r.
  apply Outside. apply (on_message_responses_known c0 message). assumption.
Qed.

(* ===================================================================== *)
(** ** Errors *)
(* ===================================================================== *)

(** X3.  Delivering a message raises exactly when its topic has a
    callback and its payload is not well-formed UTF-8.  The exception is
    then [UnicodeDecodeError], raised before anything else happens: the
    dictionary is unchanged and no call has been made. *)
Theorem on_message_raises_exactly (c : Config) (message : Message) :
  ((exists e : Exn, fst (run (on_message message) c) = Raised e) <->
   In (topic message) routed_topics /\
   utf8_well_formed (payload message) = false) /\
  (forall e : Exn,
      fst (run (on_message message) c) = Raised e ->
      e = UnicodeDecodeError /\
      snd (run (on_message message) c) = mkWorld c []).
Proof.
  assert (forall e, decode (payload message) = inl e ->
                    e = UnicodeDecodeError /\
                    utf8_well_formed (payload message) = false) as Bad.
  { unfold decode. intros e.
    destruct (utf8_well_formed (payload message)); [discriminate|].
    intros E. inversion E. auto. }
  assert (forall p, decode (payload message) = inr p ->
                    utf8_well_formed (payload message) = true) as Good.
  { unfold decode. intros p.
    destruct (utf8_well_formed (payload message)); [auto | discriminate]. }
  assert (In (topic message) routed_topics ->
          on_message message = toggle_lock message
          \/ on_message message = toggle_temp_password message) as Routed.
  { intros R. apply routed_topics_spelled in R.
    destruct R as [R | [R | [R | R]]];
      [left; apply on_message_lock | left; apply on_message_lock
       | right; apply on_message_temp | right; apply on_message_temp]; auto. }
  assert (forall e, fst (run (on_message message) c) = Raised e ->
                    In (topic message) routed_topics /\
                    decode (payload message) = inl e /\
                    snd (run (on_message message) c) = mkWorld c []) as Raises.
  { intros e R.
    destruct (in_dec string_dec (topic message) routed_topics) as [I | N];
      [|rewrite (on_message_unrouted message N) in R; discriminate].
    split; [assumption|].
    destruct (decode (payload message)) as [e' | p] eqn:Decoded.
    - destruct (Routed I) as [H | H]; rewrite H in *.
      + rewrite (toggle_lock_raises c message e' Decoded) in *.
        simpl in R. inversion R. auto.
      + rewrite (toggle_temp_password_raises c message e' Decoded) in *.
        simpl in R. inversion R. auto.
    - exfalso. destruct (Routed I) as [H | H]; rewrite H in R.
      + destruct (Z.eq_dec (authenticate c c p) 0) as [A | A].
        * rewrite (toggle_lock_refused c message p Decoded A) in R.
          discriminate.
        * rewrite (toggle_lock_accepted c message p Decoded A) in R.
          discriminate.
      + destruct (Z.eq_dec (authenticate c c p) 1) as [A | A].
        * rewrite (toggle_temp_password_accepted c message p Decoded A) in R.
          discriminate.
        * rewrite (toggle_temp_password_refused c message p Decoded A) in R.
          discriminate. }
  split; [split|].
  - intros [e R]. destruct (Raises e R) as (I & D & _).
    split; [assumption|]. apply (Bad e D).
  - intros [I W]. exists UnicodeDecodeError.
    assert (decode (payload message) = inl UnicodeDecodeError) as D
        by (unfold decode; rewrite W; reflexivity).
    destruct (Routed I) as [H | H]; rewrite H.
    + rewrite (toggle_lock_raises c message _ D). reflexivity.
    + rewrite (toggle_temp_password_raises c message _ D). reflexivity.
  - intros e R. destruct (Raises e R) as (_ & D & S).
    split; [apply (Bad e D) | assumption].
Qed.

(* ===================================================================== *)
(** ** Invariants of the message loop *)
(* ===================================================================== *)

(** One message: where the dictionary and the file end up. *)
Lemma on_message_effect (c : Config) (message : Message) :
  same_settings c (config_after (on_message message) c) /\
  (is_flag (locked c) ->
   is_flag (locked (config_after (on_message message) c))) /\
  (is_flag (mqtt_temp_active c) ->
   is_flag (mqtt_temp_active (config_after (on_message message) c))) /\
  fold_left disk_step (log_after (on_message message) c)
            (mkDisk (Holds c) None)
  = mkDisk (Holds (config_after (on_message message) c)) None /\
  Forall (disciplined c) (log_after (on_message message) c).
Proof.
  unfold config_after, log_after.
  destruct (on_message_shape c message)
    as [[e Run] | [Run | [(r & Known & Run)
                         | (c' & r & Known & Same & L & T & Run)]]];
    rewrite Run; simpl.
  - repeat split; auto.
  - repeat split; auto.
  - repeat split; auto. constructor; [|constructor].
    simpl. auto.
  - split; [assumption|]. split; [assumption|]. split; [assumption|].
    split; [reflexivity|].
    pose proof Same as (S1 & S2 & S3 & S4 & S5).
    constructor; [reflexivity|].
    constructor; [split; [reflexivity | exact Same]|].
    constructor; [reflexivity|].
    constructor; [|constructor].
    simpl. auto.
Qed.

Lemma disciplined_settings (c c1 : Config) (e : Event) :
  same_settings c c1 -> disciplined c1 e -> disciplined c e.
Proof.
  intros Same. destruct e as [path | path d | path | p]; simpl; auto.
  - intros [P S]. split; [assumption|].
    apply (same_settings_trans c c1 d); assumption.
  - destruct Same as (_ & _ & Q & _). rewrite Q. auto.
Qed.

(** X4.  However many messages are delivered, and whether or not the loop
    ends with an exception, the two passwords, the QoS, the client id and
    the transport are what they were at the start, and a flag that held 0
    or 1 at the start holds 0 or 1 at the end. *)
Theorem loop_keeps_settings_and_flags (inbound : list Message) (c : Config) :
  same_settings c (config_after (loop_forever inbound) c) /\
  (is_flag (locked c) ->
   is_flag (locked (config_after (loop_forever inbound) c))) /\
  (is_flag (mqtt_temp_active c) ->
   is_flag (mqtt_temp_active (config_after (loop_forever inbound) c))).
Proof.
  apply (loop_forever_induction
           (fun c _ c2 =>
              same_settings c c2 /\
              (is_flag (locked c) -> is_flag (locked c2)) /\
              (is_flag (mqtt_temp_active c) ->
               is_flag (mqtt_temp_active c2)))).
  - intros c0. split; [apply same_settings_refl | auto].
  - intros c0 message l2 c2 (Same & L & T).
    destruct (on_message_effect c0 message) as (Same1 & L1 & T1 & _).
    split; [apply (same_settings_trans _ _ _ Same1 Same) | auto].
Qed.

(** X5.  If [lock.json] holds the dictionary when the loop starts, it
    holds the dictionary when the loop is done, however many messages were
    delivered and whether they were accepted, refused or made a callback
    raise: the file never lags behind the dictionary between messages. *)
Theorem lock_json_follows_dictionary (inbound : list Message) (c : Config) :
  disk_after (Holds c) (log_after (loop_forever inbound) c)
  = Holds (config_after (loop_forever inbound) c).
Proof.
  assert (fold_left disk_step (log_after (loop_forever inbound) c)
                    (mkDisk (Holds c) None)
          = mkDisk (Holds (config_after (loop_forever inbound) c)) None)
    as Closed.
  { apply (loop_forever_induction
             (fun c l c2 =>
                fold_left disk_step l (mkDisk (Holds c) None)
                = mkDisk (Holds c2) None)).
    - reflexivity.
    - intros c0 message l2 c2 Rest.
      destruct (on_message_effect c0 message) as (_ & _ & _ & First & _).
      rewrite fold_left_app, First. exact Rest. }
  unfold disk_after. rewrite Closed. reflexivity.
Qed.

(** X6.  Every call the loop makes is one of these: opening, dumping to
    or closing [lock.json], the record dumped having the passwords, QoS,
    client id and transport of the start; or a publication on
    [lock/update], not retained, at the QoS of the start, expiring after
    30 seconds, whose payload is one of the twelve answers. *)
Theorem loop_calls_are_disciplined (inbound : list Message) (c : Config) :
  Forall (disciplined c) (log_after (loop_forever inbound) c).
Proof.
  apply (loop_forever_induction (fun c l _ => Forall (disciplined c) l)).
  - constructor.
  - intros c0 message l2 c2 Rest.
    destruct (on_message_effect c0 message) as (Same & _ & _ & _ & First).
    apply Forall_app. split; [assumption|].
    apply (Forall_impl _ (fun e => disciplined_settings c0 _ e Same) Rest).
Qed.

(* ===================================================================== *)
(** ** Accepted requests *)
(* ===================================================================== *)

(** X7.  With ["locked"] holding 0 or 1, an accepted request leaves the
    lock in the state asked for: engaged after [lock/lock], disengaged
    after [lock/unlock].  The answer says "Already" exactly when the
    dictionary is left as it was, and "Now" exactly when ["locked"] has
    changed. *)
Theorem accepted_lock_request_reaches_state
        (c : Config) (message : Message) (password : string) :
  is_flag (locked c) ->
  topic message = "lock/lock" \/ topic message = "lock/unlock" ->
  decode (payload message) = inr password ->
  authenticate c c password <> 0 ->
  locked (config_after (on_message message) c)
  = (if (topic message =? "lock/lock")%string then 1 else 0) /\
  ((config_after (on_message message) c = c /\
    responses (log_after (on_message message) c)
    = [ if (topic message =? "lock/lock")%string
        then "Success: Lock Already Engaged"
        else "Success: Lock Already Disengaged" ])
   \/
   (locked (config_after (on_message message) c) <> locked c /\
    responses (log_after (on_message message) c)
    = [ if (topic message =? "lock/lock")%string
        then "Success: Lock Now Engaged"
        else "Success: Lock Now Disengaged" ])).
Proof.
  intros Flag Topic Decoded Accepted.
  rewrite on_message_lock by assumption.
  unfold config_after, log_after.
  rewrite (toggle_lock_accepted c message password Decoded Accepted).
  unfold lock_redundant, lock_toggled.
  destruct Flag as [F | F]; destruct Topic as [T | T]; rewrite F, T; simpl.
  - split; [|right]; destruct (authenticate c c password =? 2); simpl;
      repeat split; try reflexivity; discriminate.
  - split; [assumption|]. left. auto.
  - split; [assumption|]. left. auto.
  - split; [|right]; destruct (authenticate c c password =? 2); simpl;
      repeat split; try reflexivity; discriminate.
Qed.

Lemma accepted_lock_request_reaches_state_witness :
  locked (config_after (on_message (mkMessage "lock/lock" (encode "admin")))
                       (mkConfig 0 1 "1234" "admin" 1 "slock" "tcp")) = 1.
Proof.
  destruct (accepted_lock_request_reaches_state
              (mkConfig 0 1 "1234" "admin" 1 "slock" "tcp")
              (mkMessage "lock/lock" (encode "admin")) "admin")
    as [Engaged _].
  - left. reflexivity.
  - left. reflexivity.
  - reflexivity.
  - simpl. discriminate.
  - exact Engaged.
Defined.

(** X8.  The toggle does not look at the topic.  If ["locked"] holds a
    number other than 0 and 1, an accepted request on [lock/unlock] is
    answered "Success: Lock Now Disengaged" and leaves ["locked"] at 1,
    that is engaged; the temporary password is not retired. *)
Theorem unlock_from_stray_flag_engages
        (c : Config) (message : Message) (password : string) :
  locked c <> 0 ->
  locked c <> 1 ->
  topic message = "lock/unlock" ->
  decode (payload message) = inr password ->
  authenticate c c password <> 0 ->
  locked (config_after (on_message message) c) = 1 /\
  mqtt_temp_active (config_after (on_message message) c)
  = mqtt_temp_active c /\
  responses (log_after (on_message message) c)
  = ["Success: Lock Now Disengaged"].
Proof.
  intros N0 N1 Topic Decoded Accepted.
  apply Z.eqb_neq in N0. apply Z.eqb_neq in N1.
  rewrite on_message_lock by auto.
  unfold config_after, log_after.
  rewrite (toggle_lock_accepted c message password Decoded Accepted).
  unfold lock_redundant, lock_toggled. rewrite N0, N1, Topic. simpl.
  rewrite andb_false_r. auto.
Qed.

Lemma unlock_from_stray_flag_engages_witness :
  locked (config_after (on_message (mkMessage "lock/unlock" (encode "admin")))
                       (mkConfig 2 0 "1234" "admin" 1 "slock" "tcp")) = 1 /\
  responses (log_after (on_message (mkMessage "lock/unlock" (encode "admin")))
                       (mkConfig 2 0 "1234" "admin" 1 "slock" "tcp"))
  = ["Success: Lock Now Disengaged"].
Proof.
  destruct (unlock_from_stray_flag_engages
              (mkConfig 2 0 "1234" "admin" 1 "slock" "tcp")
              (mkMessage "lock/unlock" (encode "admin")) "admin")
    as (Engaged & _ & Answer).
  - simpl. discriminate.
  - simpl. discriminate.
  - reflexivity.
  - reflexivity.
  - simpl. discriminate.
  - split; [exact Engaged | exact Answer].
Defined.

(** X9.  With ["mqtt_temp_active"] holding 0 or 1, an activation or
    deactivation request carrying the permanent password leaves the flag
    at 1 after [activate] and at 0 after [deactivate], never touches
    ["locked"], and rewrites [lock.json] with the resulting dictionary.
    The answer says "Already" exactly when the dictionary is left as it
    was and "Now" exactly when the flag has changed. *)
Theorem permanent_password_sets_temporary_flag
        (c : Config) (message : Message) :
  is_flag (mqtt_temp_active c) ->
  topic message = "lock/password/temp/activate"
  \/ topic message = "lock/password/temp/deactivate" ->
  decode (payload message) = inr (mqtt_perm_pass c) ->
  mqtt_temp_active (config_after (on_message message) c)
  = (if (topic message =? "lock/password/temp/activate")%string
     then 1 else 0) /\
  locked (config_after (on_message message) c) = locked c /\
  dumps (log_after (on_message message) c)
  = [config_after (on_message message) c] /\
  ((config_after (on_message message) c = c /\
    responses (log_after (on_message message) c)
    = [ if (topic message =? "lock/password/temp/activate")%string
        then "Success: Temp Password Already Activated"
        else "Success: Temp Password Already Deactivated" ])
   \/
   (mqtt_temp_active (config_after (on_message message) c)
    <> mqtt_temp_active c /\
    responses (log_after (on_message message) c)
    = [ if (topic message =? "lock/password/temp/activate")%string
        then "Success: Temp Password Now Activated"
        else "Success: Temp Password Now Deactivated" ])).
Proof.
  intros Flag Topic Decoded.
  assert (authenticate c c (mqtt_perm_pass c) = 1) as Auth
      by (apply authenticate_permanent; reflexivity).
  rewrite on_message_temp by assumption.
  unfold config_after, log_after.
  rewrite (toggle_temp_password_accepted c message _ Decoded Auth).
  unfold temp_redundant, temp_toggled.
  destruct Flag as [F | F]; destruct Topic as [T | T]; rewrite F, T; simpl.
  - repeat split. right. split; [discriminate | reflexivity].
  - repeat split; auto.
  - repeat split; auto.
  - repeat split. right. split; [discriminate | reflexivity].
Qed.

Lemma permanent_password_sets_temporary_flag_witness :
  mqtt_temp_active
    (config_after
       (on_message (mkMessage "lock/password/temp/activate" (encode "admin")))
       (mkConfig 1 0 "1234" "admin" 1 "slock" "tcp")) = 1.
Proof.
  destruct (permanent_password_sets_temporary_flag
              (mkConfig 1 0 "1234" "admin" 1 "slock" "tcp")
              (mkMessage "lock/password/temp/activate" (encode "admin")))
    as [Active _].
  - left. reflexivity.
  - left. reflexivity.
  - reflexivity.
  - exact Active.
Defined.

(* ===================================================================== *)
(** ** What it takes to change the dictionary *)
(* ===================================================================== *)

(** A property of the dictionary lost over a run of the loop was lost at
    some message; if losing it at one message has a cause that only
    depends on the unchanging part of the dictionary, some message of the
    run has that cause. *)
Lemma loop_change_has_cause
      (P : Config -> Prop) (Cause : Config -> Message -> Prop) :
  (forall c : Config, P c \/ ~ P c) ->
  (forall (c c1 : Config) (message : Message),
      same_settings c c1 -> Cause c1 message -> Cause c message) ->
  (forall (c : Config) (message : Message),
      P c -> ~ P (config_after (on_message message) c) -> Cause c message) ->
  forall (inbound : list Message) (c : Config),
    P c ->
    ~ P (config_after (loop_forever inbound) c) ->
    exists message : Message, In message inbound /\ Cause c message.
Proof.
  intros Decide Stable Step inbound.
  induction inbound as [| message rest IH]; intros c Before After.
  - exfalso. apply After. exact Before.
  - destruct (Decide (config_after (on_message message) c)) as [Kept | Lost].
    + unfold config_after at 1 in After. rewrite loop_forever_step in After.
      destruct (fst (run (on_message message) c)) as [[] | e];
        simpl in After.
      * destruct (IH _ Kept After) as (m & Inside & Caused).
        exists m. split; [right; assumption|].
        apply (Stable c (config_after (on_message message) c)); auto.
        apply on_message_effect.
      * contradiction.
    + exists message. split; [left; reflexivity|].
      apply Step; assumption.
Qed.

Lemma toggle_lock_keeps_inactive (c : Config) (message : Message) :
  mqtt_temp_active c = 0 ->
  mqtt_temp_active (config_after (toggle_lock message) c) = 0.
Proof.
  intros Inactive.
  destruct (toggle_lock_config c message)
    as [Same | (password & _ & _ & _ & Toggled)].
  - rewrite Same. assumption.
  - rewrite Toggled. unfold lock_toggled.
    destruct ((authenticate c c password =? 2)
              && (locked (set_locked (if locked c =? 1 then 0 else 1) c)
                  =? 0)); simpl; auto.
Qed.

(** X10.  Only the permanent password turns the temporary password on.
    If ["mqtt_temp_active"] is 0 when the loop starts and is not 0 after
    some messages, one of them arrived on [lock/password/temp/activate]
    with the permanent password as payload. *)
Theorem activation_needs_permanent_password
        (inbound : list Message) (c : Config) :
  mqtt_temp_active c = 0 ->
  mqtt_temp_active (config_after (loop_forever inbound) c) <> 0 ->
  exists message : Message,
    In message inbound /\
    topic message = "lock/password/temp/activate" /\
    decode (payload message) = inr (mqtt_perm_pass c).
Proof.
  apply (loop_change_has_cause
           (fun c => mqtt_temp_active c = 0)
           (fun c message =>
              topic message = "lock/password/temp/activate" /\
              decode (payload message) = inr (mqtt_perm_pass c))).
  - intros c0. destruct (Z.eq_dec (mqtt_temp_active c0) 0); auto.
  - intros c0 c1 message (Perm & _) (T & D). rewrite Perm in D. auto.
  - intros c0 message Inactive Changed.
    destruct (in_dec string_dec (topic message) routed_topics) as [R | N];
      [|rewrite (on_message_unrouted message N) in Changed;
        exfalso; apply Changed; exact Inactive].
    apply routed_topics_spelled in R.
    assert (topic message = "lock/lock" \/ topic message = "lock/unlock"
            \/ (topic message = "lock/password/temp/activate"
                \/ topic message = "lock/password/temp/deactivate"))
      as [L | [U | T]] by tauto.
    + rewrite on_message_lock in Changed by auto.
      exfalso. apply Changed. apply toggle_lock_keeps_inactive. assumption.
    + rewrite on_message_lock in Changed by auto.
      exfalso. apply Changed. apply toggle_lock_keeps_inactive. assumption.
    + rewrite on_message_temp in Changed by assumption.
      unfold config_after in Changed.
      destruct (decode (payload message)) as [e | password] eqn:Decoded.
      * rewrite (toggle_temp_password_raises c0 message e Decoded) in Changed.
        contradiction.
      * destruct (Z.eq_dec (authenticate c0 c0 password) 1)
          as [Accepted | Refused].
        -- pose proof Accepted as IsPerm.
           apply authenticate_permanent in IsPerm. subst password.
           split; [|reflexivity].
           destruct T as [T | T]; [assumption|].
           rewrite (toggle_temp_password_accepted c0 message _
                      Decoded Accepted) in Changed.
           unfold temp_redundant in Changed.
           rewrite Inactive, T in Changed. simpl in Changed. contradiction.
        -- rewrite (toggle_temp_password_refused c0 message password
                      Decoded Refused) in Changed.
           contradiction.
Qed.

Lemma activation_needs_permanent_password_witness :
  exists message : Message,
    In message
       [ mkMessage "lock/unlock" (encode "1234");
         mkMessage "lock/password/temp/activate" (encode "admin") ] /\
    topic message = "lock/password/temp/activate" /\
    decode (payload message) = inr "admin".
Proof.
  apply (activation_needs_permanent_password
           [ mkMessage "lock/unlock" (encode "1234");
             mkMessage "lock/password/temp/activate" (encode "admin") ]
           (mkConfig 1 0 "1234" "admin" 1 "slock" "tcp")).
  - reflexivity.
  - vm_compute. discriminate.
Defined.

(** X11.  Only a stored password on [lock/unlock] disengages the lock.
    If ["locked"] is 1 when the loop starts and is not 1 after some
    messages, one of them arrived on [lock/unlock] with the permanent or
    the temporary password as payload. *)
Theorem disengaging_needs_stored_password
        (inbound : list Message) (c : Config) :
  locked c = 1 ->
  locked (config_after (loop_forever inbound) c) <> 1 ->
  exists message : Message,
    In message inbound /\
    topic message = "lock/unlock" /\
    (decode (payload message) = inr (mqtt_perm_pass c)
     \/ decode (payload message) = inr (mqtt_temp_pass c)).
Proof.
  apply (loop_change_has_cause
           (fun c => locked c = 1)
           (fun c message =>
              topic message = "lock/unlock" /\
              (decode (payload message) = inr (mqtt_perm_pass c)
               \/ decode (payload message) = inr (mqtt_temp_pass c)))).
  - intros c0. destruct (Z.eq_dec (locked c0) 1); auto.
  - intros c0 c1 message (Perm & Temp & _) (T & D).
    rewrite Perm, Temp in D. auto.
  - intros c0 message Engaged Changed.
    destruct (in_dec string_dec (topic message) routed_topics) as [R | N];
      [|rewrite (on_message_unrouted message N) in Changed;
        exfalso; apply Changed; exact Engaged].
    apply routed_topics_spelled in R.
    assert ((topic message = "lock/lock" \/ topic message = "lock/unlock")
            \/ (topic message = "lock/password/temp/activate"
                \/ topic message = "lock/password/temp/deactivate"))
      as [L | T] by tauto.
    + rewrite on_message_lock in Changed by assumption.
      destruct (toggle_lock_config c0 message)
        as [Same | (password & Decoded & Accepted & Fresh & _)];
        [rewrite Same in Changed; contradiction|].
      assert (topic message = "lock/unlock") as U.
      { destruct L as [L | L]; [|assumption].
        unfold lock_redundant in Fresh. rewrite Engaged, L in Fresh.
        discriminate. }
      split; [assumption|].
      destruct (authenticate_range c0 c0 password) as [A | [A | A]];
        [contradiction | |].
      * apply authenticate_permanent in A. subst password. auto.
      * apply authenticate_temporary in A. destruct A as (_ & _ & A).
        subst password. auto.
    + rewrite on_message_temp in Changed by assumption.
      exfalso. apply Changed.
      destruct (toggle_temp_password_config c0 message) as [Same | Toggled].
      * rewrite Same. assumption.
      * rewrite Toggled. exact Engaged.
Qed.

Lemma disengaging_needs_stored_password_witness :
  exists message : Message,
    In message
       [ mkMessage "lock/lock" (encode "nope");
         mkMessage "lock/unlock" (encode "admin") ] /\
    topic message = "lock/unlock" /\
    (decode (payload message) = inr "admin"
     \/ decode (payload message) = inr "1234").
Proof.
  apply (disengaging_needs_stored_password
           [ mkMessage "lock/lock" (encode "nope");
             mkMessage "lock/unlock" (encode "admin") ]
           (mkConfig 1 0 "1234" "admin" 1 "slock" "tcp")).
  - reflexivity.
  - vm_compute. discriminate.
Defined.

(* ===================================================================== *)
(** ** Requests in sequence *)
(* ===================================================================== *)

Lemma loop_forever_after_return
      (c c1 : Config) (l1 : list Event)
      (message : Message) (rest : list Message) :
  run (on_message message) c = (Returned tt, mkWorld c1 l1) ->
  run (loop_forever (message :: rest)) c
  = (fst (run (loop_forever rest) c1),
     mkWorld (config_after (loop_forever rest) c1)
             (l1 ++ log_after (loop_forever rest) c1)).
Proof.
  intros Run. rewrite loop_forever_step.
  unfold config_after, log_after. rewrite Run. reflexivity.
Qed.

(** X12.  A request that changes the lock, followed by the opposite
    request, both with the permanent password, puts the whole dictionary
    back as it was; each is answered "Now". *)
Theorem opposite_lock_requests_restore
        (c : Config) (first second : Message) :
  is_flag (locked c) ->
  topic first = "lock/lock" \/ topic first = "lock/unlock" ->
  topic second = "lock/lock" \/ topic second = "lock/unlock" ->
  topic first <> topic second ->
  lock_redundant c (topic first) = false ->
  decode (payload first) = inr (mqtt_perm_pass c) ->
  decode (payload second) = inr (mqtt_perm_pass c) ->
  config_after (loop_forever [first; second]) c = c /\
  responses (log_after (loop_forever [first; second]) c)
  = [ if (topic first =? "lock/lock")%string
      then "Success: Lock Now Engaged" else "Success: Lock Now Disengaged";
      if (topic second =? "lock/lock")%string
      then "Success: Lock Now Engaged" else "Success: Lock Now Disengaged" ].
Proof.
  intros Flag T1 T2 Opposite Fresh D1 D2.
  assert (forall c0, mqtt_perm_pass c0 = mqtt_perm_pass c ->
                     authenticate c0 c0 (mqtt_perm_pass c) = 1) as Auth
      by (intros c0 E; apply authenticate_permanent; auto).
  assert (run (on_message first) c
          = (Returned tt,
             mkWorld (lock_toggled 1 c)
               (save_then_answer (lock_toggled 1 c)
                  (if (topic first =? "lock/lock")%string
                   then "Success: Lock Now Engaged"
                   else "Success: Lock Now Disengaged")))) as Run1.
  { rewrite on_message_lock by assumption.
    rewrite (toggle_lock_accepted c first _ D1)
      by (rewrite (Auth c eq_refl); discriminate).
    rewrite Fresh, (Auth c eq_refl). simpl.
    destruct (topic first =? "lock/lock")%string; reflexivity. }
  assert (lock_redundant (lock_toggled 1 c) (topic second) = false
          /\ lock_toggled 1 (lock_toggled 1 c) = c) as [Fresh2 Back].
  { unfold lock_redundant, lock_toggled in *.
    destruct c as [l ta tp pp q id tr]. simpl in *.
    destruct Flag as [-> | ->];
      destruct T1 as [E1 | E1]; destruct T2 as [E2 | E2];
      rewrite E1 in *; rewrite E2 in *; simpl in *;
      try discriminate; try (exfalso; apply Opposite; reflexivity);
      split; reflexivity. }
  assert (run (on_message second) (lock_toggled 1 c)
          = (Returned tt,
             mkWorld c
               (save_then_answer c
                  (if (topic second =? "lock/lock")%string
                   then "Success: Lock Now Engaged"
                   else "Success: Lock Now Disengaged")))) as Run2.
  { assert (mqtt_perm_pass (lock_toggled 1 c) = mqtt_perm_pass c) as Perm
        by apply same_settings_lock_toggled.
    rewrite on_message_lock by assumption.
    rewrite <- Perm in D2 at 1.
    rewrite (toggle_lock_accepted (lock_toggled 1 c) second _ D2)
      by (rewrite Perm, (Auth _ Perm); discriminate).
    rewrite Fresh2, Perm, (Auth _ Perm), Back. simpl.
    destruct (topic second =? "lock/lock")%string; reflexivity. }
  unfold config_after, log_after.
  rewrite (loop_forever_after_return _ _ _ first [second] Run1).
  unfold config_after, log_after.
  rewrite (loop_forever_after_return _ _ _ second [] Run2).
  simpl. auto.
Qed.

Lemma opposite_lock_requests_restore_witness :
  config_after
    (loop_forever [ mkMessage "lock/unlock" (encode "admin");
                    mkMessage "lock/lock" (encode "admin") ])
    (mkConfig 1 1 "1234" "admin" 1 "slock" "tcp")
  = mkConfig 1 1 "1234" "admin" 1 "slock" "tcp".
Proof.
  destruct (opposite_lock_requests_restore
              (mkConfig 1 1 "1234" "admin" 1 "slock" "tcp")
              (mkMessage "lock/unlock" (encode "admin"))
              (mkMessage "lock/lock" (encode "admin")))
    as [Back _].
  - right. reflexivity.
  - right. reflexivity.
  - left. reflexivity.
  - simpl. discriminate.
  - reflexivity.
  - reflexivity.
  - reflexivity.
  - exact Back.
Defined.

(** X13.  One activation buys one unlock.  From an engaged lock, with a
    temporary password that differs from the permanent one: activation
    with the permanent password, then an unlock with the temporary
    password, then any further lock or unlock request with the temporary
    password.  The first two are accepted, the lock ends disengaged and
    the temporary password retired, and the third is refused. *)
Theorem temporary_password_unlocks_once
        (c : Config) (activation unlock again : Message) :
  locked c = 1 ->
  is_flag (mqtt_temp_active c) ->
  mqtt_temp_pass c <> mqtt_perm_pass c ->
  topic activation = "lock/password/temp/activate" ->
  decode (payload activation) = inr (mqtt_perm_pass c) ->
  topic unlock = "lock/unlock" ->
  decode (payload unlock) = inr (mqtt_temp_pass c) ->
  topic again = "lock/lock" \/ topic again = "lock/unlock" ->
  decode (payload again) = inr (mqtt_temp_pass c) ->
  responses (log_after (loop_forever [activation; unlock; again]) c)
  = [ if mqtt_temp_active c =? 1
      then "Success: Temp Password Already Activated"
      else "Success: Temp Password Now Activated";
      "Success: Lock Now Disengaged";
      if (topic again =? "lock/lock")%string
      then "Failure: Locking Failed" else "Failure: Unlocking Failed" ] /\
  locked (config_after (loop_forever [activation; unlock; again]) c) = 0 /\
  mqtt_temp_active
    (config_after (loop_forever [activation; unlock; again]) c) = 0.
Proof.
  intros Engaged Flag Differ T1 D1 T2 D2 T3 D3.
  destruct c as [l ta tp pp q id tr].
  cbn [locked mqtt_temp_active mqtt_temp_pass mqtt_perm_pass] in *. subst l.
  set (c1 := mkConfig 1 1 tp pp q id tr).
  set (c2 := mkConfig 0 0 tp pp q id tr).
  assert (run (on_message activation) (mkConfig 1 ta tp pp q id tr)
          = (Returned tt,
             mkWorld c1
               (save_then_answer c1
                  (if ta =? 1
                   then "Success: Temp Password Already Activated"
                   else "Success: Temp Password Now Activated")))) as Run1.
  { rewrite on_message_temp by auto.
    rewrite (toggle_temp_password_accepted _ activation pp D1)
      by (apply authenticate_permanent; reflexivity).
    unfold temp_redundant, temp_toggled. rewrite T1. simpl.
    destruct Flag as [-> | ->]; reflexivity. }
  assert (run (on_message unlock) c1
          = (Returned tt,
             mkWorld c2 (save_then_answer c2 "Success: Lock Now Disengaged")))
    as Run2.
  { assert (authenticate c1 c1 tp = 2) as Auth
        by (apply authenticate_temporary; simpl; repeat split; auto; lia).
    rewrite on_message_lock by auto.
    rewrite (toggle_lock_accepted c1 unlock tp D2)
      by (rewrite Auth; discriminate).
    rewrite Auth, T2. reflexivity. }
  assert (run (on_message again) c2
          = (Returned tt,
             mkWorld c2
               (refusal c2 (if (topic again =? "lock/lock")%string
                            then "Failure: Locking Failed"
                            else "Failure: Unlocking Failed")))) as Run3.
  { rewrite on_message_lock by assumption.
    apply (toggle_lock_refused c2 again tp D3).
    apply authenticate_neither. simpl. split; [assumption|].
    intros [N _]. apply N. reflexivity. }
  unfold config_after, log_after.
  rewrite (loop_forever_after_return _ _ _ activation [unlock; again] Run1).
  unfold config_after, log_after.
  rewrite (loop_forever_after_return _ _ _ unlock [again] Run2).
  unfold config_after, log_after.
  rewrite (loop_forever_after_return _ _ _ again [] Run3).
  simpl. auto.
Qed.

Lemma temporary_password_unlocks_once_witness :
  responses
    (log_after
       (loop_forever
          [ mkMessage "lock/password/temp/activate" (encode "admin");
            mkMessage "lock/unlock" (encode "1234");
            mkMessage "lock/unlock" (encode "1234") ])
       (mkConfig 1 0 "1234" "admin" 1 "slock" "tcp"))
  = [ "Success: Temp Password Now Activated";
      "Success: Lock Now Disengaged";
      "Failure: Unlocking Failed" ].
Proof.
  destruct (temporary_password_unlocks_once
              (mkConfig 1 0 "1234" "admin" 1 "slock" "tcp")
              (mkMessage "lock/password/temp/activate" (encode "admin"))
              (mkMessage "lock/unlock" (encode "1234"))
              (mkMessage "lock/unlock" (encode "1234")))
    as [Answers _].
  - reflexivity.
  - left. reflexivity.
  - simpl. discriminate.
  - reflexivity.
  - reflexivity.
  - reflexivity.
  - reflexivity.
  - right. reflexivity.
  - reflexivity.
  - exact Answers.
Defined.
